(** * Comment router: a shallow embedding of [src/server/api/router/comment.ts]

    The five procedures of [commentRouter] ([create], [edit], [delete],
    [like], [get]) are embedded as functions over an explicit store.  The
    relational tables are lists of rows, the ORM statements are functions on
    them, thrown errors are values of [Result], and JavaScript truthiness
    ([if (parentId)], [commentData?.userId && ...]) is written out. *)

From Stdlib Require Import List ZArith String Bool Lia Permutation.
From Stdlib Require Import Sorted.
Import ListNotations.

Local Open Scope string_scope.
Local Open Scope list_scope.
Local Open Scope Z_scope.

(** ** JavaScript values *)

Module JS.

(** [Boolean(s)] for a string: only the empty string is falsy. *)
Definition truthy_string (s : string) : bool := negb (String.eqb s "").

(** [Boolean(n)] for a number: zero is falsy. *)
Definition truthy_number (n : Z) : bool := negb (Z.eqb n 0).

(** A value that may be [undefined]. *)
Definition truthy_opt {A : Type} (t : A -> bool) (o : option A) : bool :=
  match o with
  | Some a => t a
  | None => false
  end.

(** [x === y] where [x] may be [undefined] and [y] is a string. *)
Definition strict_eq (x : option string) (y : string) : bool :=
  match x with
  | Some a => String.eqb a y
  | None => false
  end.

(** [x === y] where both sides may be [undefined]. *)
Definition strict_eq_opt (x y : option string) : bool :=
  match x, y with
  | Some a, Some b => String.eqb a b
  | None, None => true
  | _, _ => false
  end.

End JS.

(** ** Rows of the store *)

Record Comment : Type := mkComment {
  c_id : Z;
  c_userId : string;
  c_postId : string;
  c_parentId : option Z;
  c_body : string;
  c_createdAt : Z;
  c_updatedAt : Z
}.

Record Like : Type := mkLike {
  l_userId : string;
  l_commentId : Z
}.

(** The two tags imported from [@/utils/notifications], used as opaque
    constants. *)
Inductive NotificationType : Type :=
| NEW_COMMENT_ON_YOUR_POST
| NEW_REPLY_TO_YOUR_COMMENT.

(** The columns that [create] writes. *)
Record Notification : Type := mkNotification {
  n_notifierId : string;
  n_type : NotificationType;
  n_postId : string;
  n_userId : string;
  n_commentId : Z
}.

Record Post : Type := mkPost {
  p_id : string;
  p_userId : string
}.

(** The author projection selected by [get]. *)
Record User : Type := mkUser {
  u_name : string;
  u_image : string;
  u_username : option string;
  u_id : string;
  u_email : option string
}.

(** The store behind [ctx.db] and [ctx.prisma].  [comment_seq] is the next
    value of the generated comment id; [users] is the read-only author
    relation. *)
Record Db : Type := mkDb {
  comments : list Comment;
  likes : list Like;
  notifications : list Notification;
  posts : list Post;
  users : string -> User;
  comment_seq : Z
}.

Definition with_comments (s : Db) (cs : list Comment) (seq : Z) : Db :=
  mkDb cs (likes s) (notifications s) (posts s) (users s) seq.

Definition with_likes (s : Db) (ls : list Like) : Db :=
  mkDb (comments s) ls (notifications s) (posts s) (users s) (comment_seq s).

Definition with_notifications (s : Db) (ns : list Notification) : Db :=
  mkDb (comments s) (likes s) ns (posts s) (users s) (comment_seq s).

(** ** Errors *)

Inductive TRPC_ERROR_CODE : Type :=
| FORBIDDEN
| NOT_FOUND
| UNAUTHORIZED
| BAD_REQUEST
| INTERNAL_SERVER_ERROR.

Inductive Error : Type :=
| TRPCError (code : TRPC_ERROR_CODE)
| TypeError.

Inductive Result (A : Type) : Type :=
| Ok (a : A)
| Throw (e : Error).

Arguments Ok {A} a.
Arguments Throw {A} e.

(** ** ORM statements *)

Module Orm.

Definition comment_has_id (id : Z) (c : Comment) : bool := Z.eqb (c_id c) id.

Definition post_has_id (id : string) (p : Post) : bool :=
  String.eqb (p_id p) id.

Definition like_matches (userId : string) (commentId : Z) (l : Like) : bool :=
  String.eqb (l_userId l) userId && Z.eqb (l_commentId l) commentId.

(** [query.<table>.findFirst({ where })] *)
Definition findFirst {A : Type} (where_ : A -> bool) (rows : list A)
  : option A :=
  find where_ rows.

(** [insert(comment).values({userId, postId, body, parentId}).returning()]:
    the id comes from the sequence, both timestamps default to [now]. *)
Definition insert_comment (now : Z) (userId postId body : string)
    (parentId : option Z) (s : Db) : list Comment * Db :=
  let row := mkComment (comment_seq s) userId postId parentId body now now in
  ([row], with_comments s (comments s ++ [row]) (comment_seq s + 1)).

(** The raw outcome of a statement without [returning()]. *)
Record QueryResult : Type := mkQueryResult { rowCount : nat }.

Definition set_body (now : Z) (id : Z) (body : string) (c : Comment)
  : Comment :=
  if comment_has_id id c
  then mkComment (c_id c) (c_userId c) (c_postId c) (c_parentId c)
                 body (c_createdAt c) now
  else c.

(** Modelled from the spec: the table schema is not among the sources, so
    the refresh of [updatedAt] that the storage layer applies on update
    follows the spec ("updatedAt implicitly refreshed by storage").  The
    statement itself, [update(comment).set({ body }).where(eq(comment.id,
    id))], names [body] only. *)
Definition update_comment_body (now : Z) (id : Z) (body : string) (s : Db)
  : QueryResult * Db :=
  (mkQueryResult (List.length (filter (comment_has_id id) (comments s))),
   with_comments s (map (set_body now id body) (comments s)) (comment_seq s)).

(** Modelled from the spec: the referential actions of the relations that
    point at a comment (its replies, its likes) are declared in the table
    schema, which is not among the sources.  As the spec has it ("no explicit
    handling of descendant comments or likes"), the statement
    [delete(comment).where(eq(comment.id, id)).returning()] removes the
    targeted rows and nothing else. *)
Definition delete_comment (id : Z) (s : Db) : list Comment * Db :=
  (filter (comment_has_id id) (comments s),
   with_comments s
     (filter (fun c => negb (comment_has_id id c)) (comments s))
     (comment_seq s)).

(** [insert(like).values({commentId, userId}).returning()] *)
Definition insert_like (userId : string) (commentId : Z) (s : Db)
  : list Like * Db :=
  let row := mkLike userId commentId in
  ([row], with_likes s (likes s ++ [row])).

(** [delete(like).where(and(...)).returning()] *)
Definition delete_like (userId : string) (commentId : Z) (s : Db)
  : list Like * Db :=
  (filter (like_matches userId commentId) (likes s),
   with_likes s
     (filter (fun l => negb (like_matches userId commentId l)) (likes s))).

(** [insert(notification).values({...})] *)
Definition insert_notification (row : Notification) (s : Db) : Db :=
  with_notifications s (notifications s ++ [row]).

End Orm.

(** ** Procedure inputs

    The zod schemas of [@/schema/comment] are not among the sources; the
    field types are the ones the procedures and [ShapedResponse] use: comment
    ids are numbers, user and post ids are strings. *)

Record SaveCommentInput : Type := mkSaveComment {
  save_body : string;
  save_postId : string;
  save_parentId : option Z
}.

Record EditCommentInput : Type := mkEditComment {
  edit_body : string;
  edit_id : Z
}.

(** The value [edit] resolves to: the stored row on the unchanged path, the
    outcome of the update statement otherwise. *)
Inductive EditOutcome : Type :=
| CurrentComment (c : Comment)
| UpdatedComment (r : Orm.QueryResult).


(** ** The nested read of [get] *)

Module Prisma.

Import Orm.

(** The part of [SELECT_CHILD_CONFIG] that varies: the [where] of the
    [likes] relation.  All other entries are constant column flags. *)
Record ChildConfig : Type := mkChildConfig {
  likes_where_userId : option string
}.

Local Unset Elimination Schemes.

(** A [select] object for a comment: the configuration of the level and, when
    the [children] key is present, the selection of the children. *)
Inductive Select : Type :=
| SelectComment (config : ChildConfig) (children : option Select).

(** One fetched comment, before shaping. *)
Inductive RawComment : Type :=
| mkRaw (raw_id : Z) (raw_body : string) (raw_createdAt raw_updatedAt : Z)
        (raw_count_likes : nat) (raw_user : User) (raw_likes : list string)
        (raw_children : option (list RawComment)).

Local Set Elimination Schemes.

Definition liked_comment (id : Z) (l : Like) : bool := Z.eqb (l_commentId l) id.

Definition is_child_of (id : Z) (c : Comment) : bool :=
  match c_parentId c with
  | Some p => Z.eqb p id
  | None => false
  end.

Definition likes_where (config : ChildConfig) (l : Like) : bool :=
  match likes_where_userId config with
  | Some u => String.eqb (l_userId l) u
  | None => true
  end.

(** The rows a [select] yields for one comment row.  The nested [children]
    selects carry no [orderBy]: the order of the children is the store's
    choice.  They are listed here in table order, and the properties of the
    children are stated up to their order. *)
Fixpoint select_comment (s : Db) (sel : Select) (row : Comment) : RawComment :=
  match sel with
  | SelectComment config children =>
      let likes_of := filter (liked_comment (c_id row)) (likes s) in
      mkRaw (c_id row) (c_body row) (c_createdAt row) (c_updatedAt row)
        (List.length likes_of)
        (users s (c_userId row))
        (map l_userId (filter (likes_where config) likes_of))
        match children with
        | Some sel' =>
            Some (map (select_comment s sel')
                      (filter (is_child_of (c_id row)) (comments s)))
        | None => None
        end
  end.

Fixpoint insert_desc (c : Comment) (sorted : list Comment) : list Comment :=
  match sorted with
  | [] => [c]
  | x :: rest =>
      if c_createdAt x <=? c_createdAt c
      then c :: x :: rest
      else x :: insert_desc c rest
  end.

(** [orderBy: { createdAt: "desc" }] *)
Definition orderBy_createdAt_desc (rows : list Comment) : list Comment :=
  fold_right insert_desc [] rows.

Definition is_top_level_of (postId : string) (c : Comment) : bool :=
  String.eqb (c_postId c) postId
  && match c_parentId c with
     | None => true
     | Some _ => false
     end.

(** [comment.findMany({ where: { postId, parentId: null }, select,
    orderBy })] *)
Definition findMany (s : Db) (postId : string) (sel : Select)
  : list RawComment :=
  map (select_comment s sel)
      (orderBy_createdAt_desc (filter (is_top_level_of postId) (comments s))).

(** [comment.count({ where: { postId } })] *)
Fixpoint count_where (postId : string) (rows : list Comment) : nat :=
  match rows with
  | [] => 0%nat
  | c :: rest =>
      if String.eqb (c_postId c) postId
      then S (count_where postId rest)
      else count_where postId rest
  end.

Definition comment_count (s : Db) (postId : string) : nat :=
  count_where postId (comments s).

End Prisma.

(** ** The value of [get] *)

Local Unset Elimination Schemes.

Inductive ShapedResponse : Type :=
| mkShaped (user : User) (youLikedThis : bool) (likeCount : nat) (id : Z)
           (body : string) (createdAt updatedAt : Z)
           (children : option (list ShapedResponse)).

Local Set Elimination Schemes.

Definition sh_id (n : ShapedResponse) : Z :=
  match n with mkShaped _ _ _ id _ _ _ _ => id end.

Definition sh_youLikedThis (n : ShapedResponse) : bool :=
  match n with mkShaped _ y _ _ _ _ _ _ => y end.

Definition sh_likeCount (n : ShapedResponse) : nat :=
  match n with mkShaped _ _ k _ _ _ _ _ => k end.

Definition sh_children (n : ShapedResponse) : option (list ShapedResponse) :=
  match n with mkShaped _ _ _ _ _ _ _ ch => ch end.

Record GetResult : Type := mkGetResult {
  data : list ShapedResponse;
  count : nat
}.

(** ** The procedures of [commentRouter]

    [userId] is [ctx.session.user.id] (a protected procedure always has one),
    [now] the clock of the store at the time of the call.  [get] is public:
    its [userId] is [ctx?.session?.user?.id], absent on an anonymous read. *)

Module commentRouter.

Import Orm Prisma.

(** Lines 41-56: the reply branch of [create]. *)
Definition notify_reply (userId postId : string) (parentId : option Z)
    (createdComment : Comment) (s : Db) : Db :=
  if JS.truthy_opt JS.truthy_number parentId then
    match parentId with
    | Some pid =>
        let commentData := findFirst (comment_has_id pid) (comments s) in
        match commentData with
        | Some cd =>
            if JS.truthy_string (c_userId cd)
               && negb (String.eqb (c_userId cd) userId)
            then insert_notification
                   (mkNotification userId NEW_REPLY_TO_YOUR_COMMENT postId
                      (c_userId cd) (c_id createdComment)) s
            else s
        | None => s
        end
    | None => s
    end
  else s.

(** Lines 58-66: the top-level branch of [create]. *)
Definition notify_post_owner (userId postId : string) (parentId : option Z)
    (postOwnerId : option string) (createdComment : Comment) (s : Db) : Db :=
  if negb (JS.truthy_opt JS.truthy_number parentId)
     && JS.truthy_opt JS.truthy_string postOwnerId
     && negb (JS.strict_eq postOwnerId userId)
  then
    match postOwnerId with
    | Some owner =>
        insert_notification
          (mkNotification userId NEW_COMMENT_ON_YOUR_POST postId owner
             (c_id createdComment)) s
    | None => s
    end
  else s.

Definition create (now : Z) (userId : string) (input : SaveCommentInput)
    (s : Db) : Result Z * Db :=
  let body := save_body input in
  let postId := save_postId input in
  let parentId := save_parentId input in
  let postData := findFirst (post_has_id postId) (posts s) in
  let postOwnerId := option_map p_userId postData in
  let '(returned, s1) := insert_comment now userId postId body parentId s in
  match returned with
  | createdComment :: _ =>
      let s2 := notify_reply userId postId parentId createdComment s1 in
      let s3 :=
        notify_post_owner userId postId parentId postOwnerId createdComment s2
      in
      (Ok (c_id createdComment), s3)
  | [] =>
      (* [createdComment] is undefined: reading [createdComment.id] throws *)
      (Throw TypeError, s1)
  end.

Definition edit (now : Z) (userId : string) (input : EditCommentInput)
    (s : Db) : Result EditOutcome * Db :=
  let body := edit_body input in
  let id := edit_id input in
  let currentComment := findFirst (comment_has_id id) (comments s) in
  if negb (JS.strict_eq (option_map c_userId currentComment) userId)
  then (Throw (TRPCError FORBIDDEN), s)
  else
    match currentComment with
    | Some cc =>
        if String.eqb (c_body cc) body
        then (Ok (CurrentComment cc), s)
        else
          let '(updatedComment, s1) := update_comment_body now id body s in
          (Ok (UpdatedComment updatedComment), s1)
    | None => (Throw TypeError, s)
    end.

Definition delete (userId : string) (id : Z) (s : Db) : Result Z * Db :=
  let currentComment := findFirst (comment_has_id id) (comments s) in
  if negb (JS.strict_eq (option_map c_userId currentComment) userId)
  then (Throw (TRPCError FORBIDDEN), s)
  else
    let '(returned, s1) := delete_comment id s in
    match returned with
    | deletedComment :: _ => (Ok (c_id deletedComment), s1)
    | [] => (Throw TypeError, s1)
    end.

(** [const [res] = ...; return res]: [res] is undefined on an empty array. *)
Definition like (userId : string) (commentId : Z) (s : Db)
    : option Like * Db :=
  let commentLiked := findFirst (like_matches userId commentId) (likes s) in
  let '(returned, s1) :=
    match commentLiked with
    | Some _ => delete_like userId commentId s
    | None => insert_like userId commentId s
    end
  in
  (hd_error returned, s1).


(** Lines 171-178: [where: { ...(userId ? { userId } : {}) }]. *)
Definition SELECT_CHILD_CONFIG (userId : option string) : ChildConfig :=
  mkChildConfig
    (if JS.truthy_opt JS.truthy_string userId then userId else None).

(** Lines 193-223: the [select] literal of the [findMany] call, with its six
    nested [children] keys. *)
Definition response_select (userId : option string) : Select :=
  let C := SELECT_CHILD_CONFIG userId in
  SelectComment C (Some
   (SelectComment C (Some
    (SelectComment C (Some
     (SelectComment C (Some
      (SelectComment C (Some
       (SelectComment C (Some
        (SelectComment C None)))))))))))).

(** The callback of [commentsArr.map] in [shapeComments]. *)
Fixpoint shapeComment (userId : option string) (comment : RawComment)
  : ShapedResponse :=
  match comment with
  | mkRaw id body createdAt updatedAt likeCount user youLikeThis children =>
      let youLikedThis :=
        existsb (fun obj => JS.strict_eq_opt (Some obj) userId) youLikeThis in
      match children with
      | Some ch =>
          mkShaped user youLikedThis likeCount id body createdAt updatedAt
            (Some (map (shapeComment userId) ch))
      | None =>
          mkShaped user youLikedThis likeCount id body createdAt updatedAt None
      end
  end.

Definition shapeComments (userId : option string)
    (commentsArr : list RawComment) : list ShapedResponse :=
  map (shapeComment userId) commentsArr.

(** [userId] is [ctx?.session?.user?.id]: absent on an anonymous read. *)
Definition get (userId : option string) (postId : string) (s : Db)
  : GetResult :=
  let count := comment_count s postId in
  let response := findMany s postId (response_select userId) in
  let comments := shapeComments userId response in
  mkGetResult comments count.

End commentRouter.

(** ** Notions the properties are stated with *)

Module Thread.

Import Prisma.

(** Every node of a returned tree, paired with its depth below the node the
    walk starts from (which counts as depth [d]). *)
Fixpoint nodes_from (d : nat) (n : ShapedResponse)
  : list (nat * ShapedResponse) :=
  match n with
  | mkShaped _ _ _ _ _ _ _ children =>
      (d, n) ::
      match children with
      | Some ch => flat_map (nodes_from (S d)) ch
      | None => []
      end
  end.

(** All nodes of [data], top-level comments at depth 0. *)
Definition nodes_with_depth (data : list ShapedResponse)
  : list (nat * ShapedResponse) :=
  flat_map (nodes_from 0) data.

(** Number of nested [children] keys of a [select]. *)
Fixpoint select_depth (sel : Select) : nat :=
  match sel with
  | SelectComment _ None => 0
  | SelectComment _ (Some sel') => S (select_depth sel')
  end.

Definition select_config (sel : Select) : ChildConfig :=
  match sel with SelectComment config _ => config end.

(** The configurations used at the levels of a [select], outermost first. *)
Fixpoint select_configs (sel : Select) : list ChildConfig :=
  match sel with
  | SelectComment config None => [config]
  | SelectComment config (Some sel') => config :: select_configs sel'
  end.

(** [stored_depth s id k]: the stored comment [id] lies [k] levels below a
    top-level comment, following [parentId]. *)
Inductive stored_depth (s : Db) : Z -> nat -> Prop :=
| depth_top (c : Comment) :
    In c (comments s) -> c_parentId c = None ->
    stored_depth s (c_id c) 0
| depth_reply (c : Comment) (p : Z) (k : nat) :
    In c (comments s) -> c_parentId c = Some p ->
    stored_depth s p k ->
    stored_depth s (c_id c) (S k).

End Thread.

(** ** Invariants of the store *)

Module Store.

Import Orm.

(** The comment id is a key. *)
Definition unique_ids (s : Db) : Prop := NoDup (map c_id (comments s)).

(** Stored comment ids were drawn from the sequence, which starts above 0. *)
Definition generated_ids (s : Db) : Prop :=
  0 < comment_seq s
  /\ Forall (fun c => 0 < c_id c < comment_seq s) (comments s).

(** Authors of stored comments and posts carry a non-empty user id. *)
Definition authors_present (s : Db) : Prop :=
  Forall (fun c => c_userId c <> "") (comments s)
  /\ Forall (fun p => p_userId p <> "") (posts s).

(** At most one Like row per (user, comment) pair. *)
Definition likes_unique (s : Db) : Prop :=
  forall (u : string) (c : Z),
    (List.length (filter (like_matches u c) (likes s)) <= 1)%nat.

Record store_ok (s : Db) : Prop := mkStoreOk {
  ok_unique_ids : unique_ids s;
  ok_generated_ids : generated_ids s;
  ok_authors_present : authors_present s;
  ok_likes_unique : likes_unique s
}.

(** What the update statement leaves of a row: every column but [body] and
    the storage-managed [updatedAt] is kept; the targeted rows get the new
    body, the others are kept whole. *)
Definition body_only_change (id : Z) (body : string) (old new : Comment)
  : Prop :=
  c_id new = c_id old
  /\ c_userId new = c_userId old
  /\ c_postId new = c_postId old
  /\ c_parentId new = c_parentId old
  /\ c_createdAt new = c_createdAt old
  /\ (c_id old = id -> c_body new = body)
  /\ (c_id old <> id -> new = old).

(** The store with every comment hung under another parent: the same rows,
    threaded differently. *)
Definition with_parent (c : Comment) (parent : option Z) : Comment :=
  mkComment (c_id c) (c_userId c) (c_postId c) parent (c_body c)
            (c_createdAt c) (c_updatedAt c).

Definition rethread (parent_of : Comment -> option Z) (s : Db) : Db :=
  with_comments s (map (fun c => with_parent c (parent_of c)) (comments s))
                (comment_seq s).

(** A call of one of the four mutations by an authenticated caller. *)
Inductive Call : Type :=
| CallCreate (now : Z) (userId : string) (input : SaveCommentInput)
| CallEdit (now : Z) (userId : string) (input : EditCommentInput)
| CallDelete (userId : string) (id : Z)
| CallLike (userId : string) (commentId : Z).

Definition caller (c : Call) : string :=
  match c with
  | CallCreate _ u _ => u
  | CallEdit _ u _ => u
  | CallDelete u _ => u
  | CallLike u _ => u
  end.

(** The store after a call, whatever the call resolved to. *)
Definition run (c : Call) (s : Db) : Db :=
  match c with
  | CallCreate now u input => snd (commentRouter.create now u input s)
  | CallEdit now u input => snd (commentRouter.edit now u input s)
  | CallDelete u id => snd (commentRouter.delete u id s)
  | CallLike u cid => snd (commentRouter.like u cid s)
  end.

(** The store before any comment: the sequence at its first value. *)
Definition initial (ps : list Post) (us : string -> User) : Db :=
  mkDb [] [] [] ps us 1.

(** Calls served one after the other. *)
Definition run_all (cs : list Call) (s : Db) : Db :=
  fold_left (fun acc c => run c acc) cs s.

End Store.

(** ** A sample store

    Post [p1] by alice with one thread of eight comments, each the reply to
    the one before, written in turn by alice and bob; two likes on
    comment 2. *)

Module Sample.

Definition author (id : string) : User := mkUser id "" None id None.

Definition reply (id : Z) (userId : string) (parent : option Z) : Comment :=
  mkComment id userId "p1" parent "text" id id.

Definition thread : list Comment :=
  [ reply 1 "alice" None;
    reply 2 "bob" (Some 1);
    reply 3 "alice" (Some 2);
    reply 4 "bob" (Some 3);
    reply 5 "alice" (Some 4);
    reply 6 "bob" (Some 5);
    reply 7 "alice" (Some 6);
    reply 8 "bob" (Some 7) ].

Definition thread_db : Db :=
  mkDb thread [mkLike "alice" 2; mkLike "bob" 2] [] [mkPost "p1" "alice"]
       author 9.

(** A store with the post and its first comment only. *)
Definition small_db : Db :=
  mkDb [reply 1 "alice" None] [] [] [mkPost "p1" "alice"] author 2.

(** A store with a post by bob and no comment yet. *)
Definition fresh_db : Db :=
  mkDb [] [] [] [mkPost "p1" "bob"] author 1.

(** The node that [get] returns for comment 2 on alice's read of [p1]. *)
Definition liked_node : nat * ShapedResponse :=
  Eval vm_compute in
    nth 1
      (Thread.nodes_with_depth
         (data (commentRouter.get (Some "alice") "p1" thread_db)))
      (0%nat, mkShaped (author "") false 0 0 "" 0 0 None).

(** The node for comment 2 on alice's read of [p1] after her [like] call
    on it. *)
Definition unliked_node : nat * ShapedResponse :=
  Eval vm_compute in
    nth 1
      (Thread.nodes_with_depth
         (data (commentRouter.get (Some "alice") "p1"
                  (snd (commentRouter.like "alice" 2 thread_db)))))
      (0%nat, mkShaped (author "") false 0 0 "" 0 0 None).

(** Two threads on [p1]: comment 1 by alice with the reply 2 by bob, and
    comment 3 by bob. *)
Definition forum_db : Db :=
  mkDb [reply 1 "alice" None; reply 2 "bob" (Some 1); reply 3 "bob" None]
       [] [] [mkPost "p1" "alice"] author 4.

(** The first node of a read of [p1] after alice has deleted comment 1. *)
Definition remaining_node : nat * ShapedResponse :=
  Eval vm_compute in
    nth 0
      (Thread.nodes_with_depth
         (data (commentRouter.get None "p1"
                  (snd (commentRouter.delete "alice" 1 forum_db)))))
      (0%nat, mkShaped (author "") false 0 0 "" 0 0 None).

End Sample.

(** ** Reading a result *)

Module View.

Import Prisma.

Definition sh_body (n : ShapedResponse) : string :=
  match n with mkShaped _ _ _ _ b _ _ _ => b end.

Definition sh_createdAt (n : ShapedResponse) : Z :=
  match n with mkShaped _ _ _ _ _ t _ _ => t end.

Definition has_children_key (n : ShapedResponse) : bool :=
  match sh_children n with
  | Some _ => true
  | None => false
  end.

(** Depth, id and presence of the [children] key of a returned node. *)
Definition node_shape (x : nat * ShapedResponse) : nat * Z * bool :=
  (fst x, sh_id (snd x), has_children_key (snd x)).

(** The same reading of a fetched tree before it is shaped. *)
Fixpoint raw_shape_from (d : nat) (r : RawComment) : list (nat * Z * bool) :=
  match r with
  | mkRaw id _ _ _ _ _ _ children =>
      match children with
      | Some ch => (d, id, true) :: flat_map (raw_shape_from (S d)) ch
      | None => [(d, id, false)]
      end
  end.

(** [thread_depth s postId id k]: the stored comment [id] lies [k] levels
    below a top-level comment of the post [postId]. *)
Inductive thread_depth (s : Db) (postId : string) : Z -> nat -> Prop :=
| thread_top (c : Comment) :
    In c (comments s) -> c_postId c = postId -> c_parentId c = None ->
    thread_depth s postId (c_id c) 0
| thread_reply (c : Comment) (p : Z) (k : nat) :
    In c (comments s) -> c_parentId c = Some p ->
    thread_depth s postId p k ->
    thread_depth s postId (c_id c) (S k).

(** Number of Like rows on a comment, from any user. *)
Definition likes_on (s : Db) (id : Z) : nat :=
  List.length (filter (liked_comment id) (likes s)).

(** A returned node with the reader's flag cleared, at every level. *)
Fixpoint forget_flag (n : ShapedResponse) : ShapedResponse :=
  match n with
  | mkShaped user _ likeCount id body createdAt updatedAt children =>
      mkShaped user false likeCount id body createdAt updatedAt
        match children with
        | Some ch => Some (map forget_flag ch)
        | None => None
        end
  end.

End View.

(** * Properties *)

(** ** Facts about the JavaScript comparisons and the statements *)

Lemma strict_eq_some (a b : string) :
  JS.strict_eq (Some a) b = true <-> a = b.
Proof. simpl. apply String.eqb_eq. Qed.

Lemma strict_eq_undefined (b : string) : JS.strict_eq None b = false.
Proof. reflexivity. Qed.

Lemma truthy_string_true (a : string) :
  JS.truthy_string a = true <-> a <> "".
Proof.
  unfold JS.truthy_string. rewrite negb_true_iff. apply String.eqb_neq.
Qed.

Lemma truthy_number_true (n : Z) : JS.truthy_number n = true <-> n <> 0.
Proof.
  unfold JS.truthy_number. rewrite negb_true_iff. apply Z.eqb_neq.
Qed.

Lemma findFirst_none_iff {A : Type} (p : A -> bool) (rows : list A) :
  Orm.findFirst p rows = None <-> forall x, In x rows -> p x = false.
Proof.
  unfold Orm.findFirst. split.
  - intros H x Hx. exact (find_none p rows H x Hx).
  - induction rows as [|a rows IH]; intros H; simpl.
    + reflexivity.
    + rewrite (H a (or_introl eq_refl)). apply IH.
      intros x Hx. apply H. now right.
Qed.

Lemma findFirst_some {A : Type} (p : A -> bool) (rows : list A) (x : A) :
  Orm.findFirst p rows = Some x -> In x rows /\ p x = true.
Proof. apply find_some. Qed.

Lemma findFirst_app {A : Type} (p : A -> bool) (l1 l2 : list A) :
  Orm.findFirst p (l1 ++ l2) =
  match Orm.findFirst p l1 with
  | Some x => Some x
  | None => Orm.findFirst p l2
  end.
Proof.
  unfold Orm.findFirst. induction l1 as [|a l1 IH]; simpl.
  - reflexivity.
  - destruct (p a); [reflexivity | exact IH].
Qed.

(** A found row heads the rows that a [where] on the same condition
    returns. *)
Lemma findFirst_filter_hd {A : Type} (p : A -> bool) (rows : list A) :
  hd_error (filter p rows) = Orm.findFirst p rows.
Proof.
  unfold Orm.findFirst. induction rows as [|a rows IH]; simpl.
  - reflexivity.
  - destruct (p a); [reflexivity | exact IH].
Qed.

(** ** [edit] and [delete] *)

Section EditDelete.

Import Orm commentRouter.

Variable now : Z.
Variable userId : string.
Variable s : Db.

(** C6.  An [edit] whose target is stored under another user's id throws
    FORBIDDEN and leaves the store as it was. *)
Theorem edit_non_owner_forbidden (input : EditCommentInput) (cc : Comment) :
  findFirst (comment_has_id (edit_id input)) (comments s) = Some cc ->
  c_userId cc <> userId ->
  edit now userId input s = (Throw (TRPCError FORBIDDEN), s).
Proof.
  intros Hfind Hneq. unfold edit. rewrite Hfind. simpl.
  apply String.eqb_neq in Hneq. rewrite Hneq. reflexivity.
Qed.

(** C7.  An [edit] by the owner with the stored body returns the stored row
    itself and writes nothing. *)
Theorem edit_same_body_noop (input : EditCommentInput) (cc : Comment) :
  findFirst (comment_has_id (edit_id input)) (comments s) = Some cc ->
  c_userId cc = userId ->
  c_body cc = edit_body input ->
  edit now userId input s = (Ok (CurrentComment cc), s).
Proof.
  intros Hfind Hown Hbody. unfold edit. rewrite Hfind. simpl.
  apply String.eqb_eq in Hown. rewrite Hown. simpl.
  apply String.eqb_eq in Hbody. rewrite Hbody. reflexivity.
Qed.

Lemma set_body_body_only (id : Z) (body : string) (c : Comment) :
  Store.body_only_change id body c (set_body now id body c).
Proof.
  unfold Store.body_only_change, set_body, comment_has_id.
  destruct (Z.eqb_spec (c_id c) id) as [He|Hne]; simpl.
  - repeat split; try reflexivity. intros Hc. contradiction.
  - repeat split; try reflexivity. intros Hc. contradiction.
Qed.

Lemma map_set_body_Forall2 (id : Z) (body : string) (rows : list Comment) :
  Forall2 (Store.body_only_change id body) rows
          (map (set_body now id body) rows).
Proof.
  induction rows as [|c rows IH]; simpl; constructor.
  - apply set_body_body_only.
  - exact IH.
Qed.

(** C9.  An [edit] by the owner with a new body rewrites the body of the
    targeted row only and resolves to the outcome of the update statement,
    not to a comment row. *)
Theorem edit_updates_body_only (input : EditCommentInput) (cc : Comment) :
  findFirst (comment_has_id (edit_id input)) (comments s) = Some cc ->
  c_userId cc = userId ->
  c_body cc <> edit_body input ->
  let r := edit now userId input s in
  fst r =
    Ok (UpdatedComment
          (mkQueryResult
             (List.length
                (filter (comment_has_id (edit_id input)) (comments s)))))
  /\ (forall c : Comment, fst r <> Ok (CurrentComment c))
  /\ Forall2 (Store.body_only_change (edit_id input) (edit_body input))
             (comments s) (comments (snd r))
  /\ likes (snd r) = likes s
  /\ notifications (snd r) = notifications s
  /\ posts (snd r) = posts s
  /\ comment_seq (snd r) = comment_seq s.
Proof.
  intros Hfind Hown Hbody r. subst r. unfold edit. rewrite Hfind. simpl.
  apply String.eqb_eq in Hown. rewrite Hown. simpl.
  apply String.eqb_neq in Hbody. rewrite Hbody. simpl.
  repeat split; try reflexivity.
  - intros c Hc. discriminate Hc.
  - apply map_set_body_Forall2.
Qed.

(** C10.  When no stored comment has the id, both [edit] and [delete] throw
    FORBIDDEN (the comparison of the absent row's [userId] with the caller
    fails), which is not NOT_FOUND, and the store is left as it was. *)
Theorem edit_delete_missing_forbidden (input : EditCommentInput) (id : Z) :
  (forall c, In c (comments s) -> c_id c <> edit_id input) ->
  (forall c, In c (comments s) -> c_id c <> id) ->
  edit now userId input s = (Throw (TRPCError FORBIDDEN), s)
  /\ delete userId id s = (Throw (TRPCError FORBIDDEN), s)
  /\ TRPCError FORBIDDEN <> TRPCError NOT_FOUND.
Proof.
  intros Hedit Hdel.
  assert (He : findFirst (comment_has_id (edit_id input)) (comments s) = None).
  { apply findFirst_none_iff. intros c Hc. apply Z.eqb_neq. now apply Hedit. }
  assert (Hd : findFirst (comment_has_id id) (comments s) = None).
  { apply findFirst_none_iff. intros c Hc. apply Z.eqb_neq. now apply Hdel. }
  unfold edit, delete. rewrite He, Hd. simpl.
  repeat split. discriminate.
Qed.

End EditDelete.

(** ** [like] *)

Section LikeRows.

Import Orm.

Variable userId : string.
Variable commentId : Z.

Lemma like_matches_row (l : Like) :
  like_matches userId commentId l = true <-> l = mkLike userId commentId.
Proof.
  unfold like_matches. destruct l as [u c]. simpl.
  rewrite andb_true_iff, String.eqb_eq, Z.eqb_eq. split.
  - intros [-> ->]. reflexivity.
  - intros H. injection H as -> ->. split; reflexivity.
Qed.

Lemma like_found_iff (rows : list Like) :
  (exists l, findFirst (like_matches userId commentId) rows = Some l)
  <-> In (mkLike userId commentId) rows.
Proof.
  split.
  - intros [l Hl]. apply findFirst_some in Hl. destruct Hl as [Hin Hm].
    apply like_matches_row in Hm. now subst l.
  - intros Hin.
    destruct (findFirst (like_matches userId commentId) rows) as [l|] eqn:E.
    + now exists l.
    + exfalso. rewrite findFirst_none_iff in E. specialize (E _ Hin).
      assert (Ht : like_matches userId commentId (mkLike userId commentId)
                   = true) by now apply like_matches_row.
      congruence.
Qed.

Lemma filter_all {A : Type} (p : A -> bool) (rows : list A) :
  (forall x, In x rows -> p x = true) -> filter p rows = rows.
Proof.
  induction rows as [|a rows IH]; intros H; simpl.
  - reflexivity.
  - rewrite (H a (or_introl eq_refl)). f_equal. apply IH.
    intros x Hx. apply H. now right.
Qed.

Lemma filter_none {A : Type} (p : A -> bool) (rows : list A) :
  (forall x, In x rows -> p x = false) -> filter p rows = [].
Proof.
  induction rows as [|a rows IH]; intros H; simpl.
  - reflexivity.
  - rewrite (H a (or_introl eq_refl)). apply IH.
    intros x Hx. apply H. now right.
Qed.

Lemma filter_filter_length {A : Type} (p q : A -> bool) (rows : list A) :
  (List.length (filter p (filter q rows)) <= List.length (filter p rows))%nat.
Proof.
  induction rows as [|a rows IH]; simpl.
  - lia.
  - destruct (q a) eqn:Q, (p a) eqn:P; simpl; rewrite ?P; simpl; lia.
Qed.

Lemma filter_split_perm {A : Type} (p : A -> bool) (rows : list A) :
  Permutation rows (filter p rows ++ filter (fun x => negb (p x)) rows).
Proof.
  induction rows as [|a rows IH]; simpl.
  - constructor.
  - destruct (p a); simpl.
    + now constructor.
    + now apply Permutation_cons_app.
Qed.

End LikeRows.

Section Like.

Import Orm commentRouter Store.

Variable userId : string.
Variable commentId : Z.
Variable s : Db.

Let row : Like := mkLike userId commentId.

Lemma like_present :
  In row (likes s) ->
  like userId commentId s =
  (Some row,
   with_likes s
     (filter (fun l => negb (like_matches userId commentId l)) (likes s))).
Proof.
  intros Hin. apply like_found_iff in Hin. destruct Hin as [l Hl].
  unfold like. rewrite Hl. unfold delete_like.
  rewrite findFirst_filter_hd, Hl.
  apply findFirst_some in Hl. destruct Hl as [_ Hm].
  apply like_matches_row in Hm. now subst l.
Qed.

Lemma like_absent :
  ~ In row (likes s) ->
  like userId commentId s = (Some row, with_likes s (likes s ++ [row])).
Proof.
  intros Hnot. unfold like.
  destruct (findFirst (like_matches userId commentId) (likes s)) as [l|] eqn:E.
  - exfalso. apply Hnot. apply like_found_iff. now exists l.
  - reflexivity.
Qed.

Lemma like_row_dec : In row (likes s) \/ ~ In row (likes s).
Proof.
  destruct (findFirst (like_matches userId commentId) (likes s)) as [l|] eqn:E.
  - left. apply like_found_iff. now exists l.
  - right. intros Hin. apply like_found_iff in Hin. destruct Hin as [l Hl].
    unfold row in *. congruence.
Qed.

Lemma unmatched_rows_absent :
  ~ In row (filter (fun l => negb (like_matches userId commentId l)) (likes s)).
Proof.
  intros Hin. apply filter_In in Hin. destruct Hin as [_ Hneg].
  assert (Ht : like_matches userId commentId row = true)
    by now apply like_matches_row.
  rewrite Ht in Hneg. discriminate.
Qed.

Lemma like_keeps_likes_unique :
  likes_unique s -> likes_unique (snd (like userId commentId s)).
Proof.
  intros Huniq u c. destruct like_row_dec as [Hin|Hnot].
  - rewrite (like_present Hin). simpl.
    eapply Nat.le_trans; [apply filter_filter_length | apply Huniq].
  - rewrite (like_absent Hnot). simpl. rewrite filter_app, length_app. simpl.
    destruct (like_matches u c row) eqn:E; simpl.
    + unfold like_matches in E. simpl in E.
      apply andb_true_iff in E. destruct E as [Eu Ec].
      apply String.eqb_eq in Eu. apply Z.eqb_eq in Ec. subst u c.
      rewrite filter_none; [simpl; lia|].
      intros x Hx. destruct (like_matches userId commentId x) eqn:Ex.
      * apply like_matches_row in Ex. subst x. contradiction.
      * reflexivity.
    + specialize (Huniq u c). lia.
Qed.

Lemma like_frame :
  let s' := snd (like userId commentId s) in
  comments s' = comments s /\ notifications s' = notifications s
  /\ posts s' = posts s /\ comment_seq s' = comment_seq s
  /\ users s' = users s.
Proof.
  destruct like_row_dec as [Hin|Hnot].
  - rewrite (like_present Hin). simpl. repeat split.
  - rewrite (like_absent Hnot). simpl. repeat split.
Qed.

End Like.

(** ** What [create] does to the store *)

Section CreateShape.

Import Orm commentRouter.

Variable now : Z.
Variable userId : string.
Variable input : SaveCommentInput.
Variable s : Db.

Let created : Comment :=
  mkComment (comment_seq s) userId (save_postId input) (save_parentId input)
            (save_body input) now now.

(** [create] always resolves to the generated id; it appends the new row and
    at most one notification, and touches nothing else. *)
Lemma create_shape :
  exists added : list Notification,
    create now userId input s =
    (Ok (comment_seq s),
     mkDb (comments s ++ [created]) (likes s) (notifications s ++ added)
          (posts s) (users s) (comment_seq s + 1))
    /\ (List.length added <= 1)%nat.
Proof.
  unfold create, insert_comment, notify_reply, notify_post_owner. simpl.
  fold created.
  destruct (save_parentId input) as [pid|]; simpl.
  - destruct (JS.truthy_number pid); simpl.
    + destruct (findFirst (comment_has_id pid) (comments s ++ [created]))
        as [cd|]; simpl.
      * destruct (JS.truthy_string (c_userId cd)
                  && negb (String.eqb (c_userId cd) userId)); simpl.
        -- eexists [_]. split; [reflexivity | simpl; lia].
        -- exists []. rewrite app_nil_r. split; [reflexivity | simpl; lia].
      * exists []. rewrite app_nil_r. split; [reflexivity | simpl; lia].
    + destruct (findFirst (post_has_id (save_postId input)) (posts s))
        as [pd|]; simpl.
      * destruct (JS.truthy_string (p_userId pd)
                  && negb (String.eqb (p_userId pd) userId)); simpl.
        -- eexists [_]. split; [reflexivity | simpl; lia].
        -- exists []. rewrite app_nil_r. split; [reflexivity | simpl; lia].
      * exists []. rewrite app_nil_r. split; [reflexivity | simpl; lia].
  - destruct (findFirst (post_has_id (save_postId input)) (posts s))
      as [pd|]; simpl.
    + destruct (JS.truthy_string (p_userId pd)
                && negb (String.eqb (p_userId pd) userId)); simpl.
      * eexists [_]. split; [reflexivity | simpl; lia].
      * exists []. rewrite app_nil_r. split; [reflexivity | simpl; lia].
    + exists []. rewrite app_nil_r. split; [reflexivity | simpl; lia].
Qed.

End CreateShape.

(** ** The store invariants are kept by every call *)

Section Invariants.

Import Orm commentRouter Store.

Lemma edit_store (now : Z) (userId : string) (input : EditCommentInput)
    (s : Db) :
  snd (edit now userId input s) = s
  \/ snd (edit now userId input s) =
     with_comments s
       (map (set_body now (edit_id input) (edit_body input)) (comments s))
       (comment_seq s).
Proof.
  unfold edit.
  destruct (negb (JS.strict_eq
                    (option_map c_userId
                       (findFirst (comment_has_id (edit_id input))
                          (comments s))) userId)).
  - now left.
  - destruct (findFirst (comment_has_id (edit_id input)) (comments s))
      as [cc|].
    + destruct (String.eqb (c_body cc) (edit_body input)).
      * now left.
      * now right.
    + now left.
Qed.

Lemma delete_store (userId : string) (id : Z) (s : Db) :
  snd (delete userId id s) = s
  \/ snd (delete userId id s) =
     with_comments s
       (filter (fun c => negb (comment_has_id id c)) (comments s))
       (comment_seq s).
Proof.
  unfold delete.
  destruct (negb (JS.strict_eq
                    (option_map c_userId
                       (findFirst (comment_has_id id) (comments s))) userId)).
  - now left.
  - simpl. destruct (filter (comment_has_id id) (comments s)); now right.
Qed.

Lemma set_body_id (now id : Z) (body : string) (c : Comment) :
  c_id (set_body now id body c) = c_id c.
Proof. unfold set_body. now destruct (comment_has_id id c). Qed.

Lemma set_body_userId (now id : Z) (body : string) (c : Comment) :
  c_userId (set_body now id body c) = c_userId c.
Proof. unfold set_body. now destruct (comment_has_id id c). Qed.

Lemma NoDup_map_filter {A B : Type} (f : A -> B) (p : A -> bool)
    (rows : list A) :
  NoDup (map f rows) -> NoDup (map f (filter p rows)).
Proof.
  induction rows as [|a rows IH]; simpl; intros H.
  - constructor.
  - inversion H as [|x l Hnotin Hnodup]; subst.
    destruct (p a); simpl.
    + constructor.
      * intros Hin. apply Hnotin. apply in_map_iff in Hin.
        destruct Hin as [y [Hy Hin]]. apply filter_In in Hin.
        apply in_map_iff. exists y. tauto.
      * now apply IH.
    + now apply IH.
Qed.

Lemma Forall_filter {A : Type} (P : A -> Prop) (p : A -> bool)
    (rows : list A) :
  Forall P rows -> Forall P (filter p rows).
Proof.
  rewrite !Forall_forall. intros H x Hx. apply filter_In in Hx.
  apply H. tauto.
Qed.

Lemma create_keeps_store_ok (now : Z) (userId : string)
    (input : SaveCommentInput) (s : Db) :
  userId <> "" -> store_ok s -> store_ok (snd (create now userId input s)).
Proof.
  intros Hcaller [Hu [Hseq Hg] [Hac Hap] Hl].
  destruct (create_shape now userId input s) as [added [E _]].
  rewrite E. simpl. constructor.
  - unfold unique_ids in *. simpl. rewrite map_app. simpl.
    apply Permutation_NoDup with (l := comment_seq s :: map c_id (comments s)).
    + apply Permutation_cons_append.
    + constructor; [|exact Hu].
      intros Hin. apply in_map_iff in Hin. destruct Hin as [c [Hc Hin]].
      rewrite Forall_forall in Hg. specialize (Hg c Hin). lia.
  - unfold generated_ids. simpl. split; [lia|]. apply Forall_app. split.
    + eapply Forall_impl; [|exact Hg]. simpl. intros c Hc. lia.
    + constructor; [|constructor]. simpl. lia.
  - split; simpl; [|exact Hap]. apply Forall_app. split; [exact Hac|].
    constructor; [exact Hcaller | constructor].
  - exact Hl.
Qed.

Lemma edit_keeps_store_ok (now : Z) (userId : string)
    (input : EditCommentInput) (s : Db) :
  store_ok s -> store_ok (snd (edit now userId input s)).
Proof.
  intros Hok. destruct (edit_store now userId input s) as [E|E];
    rewrite E; [exact Hok|].
  destruct Hok as [Hu [Hseq Hg] [Hac Hap] Hl]. constructor.
  - unfold unique_ids in *. simpl. rewrite map_map.
    erewrite map_ext; [exact Hu|]. intros c. apply set_body_id.
  - split; [exact Hseq|]. simpl. apply Forall_map.
    eapply Forall_impl; [|exact Hg]. simpl. intros c Hc.
    now rewrite set_body_id.
  - split; simpl; [|exact Hap]. apply Forall_map.
    eapply Forall_impl; [|exact Hac]. simpl. intros c Hc.
    now rewrite set_body_userId.
  - exact Hl.
Qed.

Lemma delete_keeps_store_ok (userId : string) (id : Z) (s : Db) :
  store_ok s -> store_ok (snd (delete userId id s)).
Proof.
  intros Hok. destruct (delete_store userId id s) as [E|E];
    rewrite E; [exact Hok|].
  destruct Hok as [Hu [Hseq Hg] [Hac Hap] Hl]. constructor.
  - unfold unique_ids in *. simpl. now apply NoDup_map_filter.
  - split; [exact Hseq|]. simpl. now apply Forall_filter.
  - split; simpl; [|exact Hap]. now apply Forall_filter.
  - exact Hl.
Qed.

Lemma like_keeps_store_ok (userId : string) (commentId : Z) (s : Db) :
  store_ok s -> store_ok (snd (like userId commentId s)).
Proof.
  intros [Hu Hg Ha Hl].
  pose proof (like_keeps_likes_unique userId commentId s Hl) as Hl'.
  destruct (like_frame userId commentId s) as [Ec [_ [Ep [Es _]]]].
  constructor.
  - unfold unique_ids. now rewrite Ec.
  - unfold generated_ids. now rewrite Ec, Es.
  - unfold authors_present. now rewrite Ec, Ep.
  - exact Hl'.
Qed.

(** Every call by a caller with an id keeps the store well formed. *)
Lemma run_keeps_store_ok (c : Call) (s : Db) :
  caller c <> "" -> store_ok s -> store_ok (run c s).
Proof.
  destruct c as [now u input|now u input|u id|u cid]; simpl; intros Hc Hok.
  - now apply create_keeps_store_ok.
  - now apply edit_keeps_store_ok.
  - now apply delete_keeps_store_ok.
  - now apply like_keeps_store_ok.
Qed.

Lemma run_all_keeps_store_ok (cs : list Call) (s : Db) :
  Forall (fun c => caller c <> "") cs -> store_ok s ->
  store_ok (run_all cs s).
Proof.
  revert s. induction cs as [|c cs IH]; intros s Hcs Hok; simpl.
  - exact Hok.
  - inversion Hcs; subst. apply IH; [assumption|].
    now apply run_keeps_store_ok.
Qed.

Lemma initial_store_ok (ps : list Post) (us : string -> User) :
  Forall (fun p => p_userId p <> "") ps -> store_ok (initial ps us).
Proof.
  intros Hps. constructor.
  - constructor.
  - split; [reflexivity | constructor].
  - split; [constructor | exact Hps].
  - intros u c. simpl. lia.
Qed.

(** X18.  Every store reached from the initial one by calls of identified
    callers is well formed: comment ids are unique, positive and below the
    sequence, authors have an id, and no (user, comment) pair has two Like
    rows. *)
Corollary reachable_store_ok (ps : list Post) (us : string -> User)
    (cs : list Call) :
  Forall (fun p => p_userId p <> "") ps ->
  Forall (fun c => caller c <> "") cs ->
  store_ok (run_all cs (initial ps us)).
Proof.
  intros Hps Hcs. apply run_all_keeps_store_ok; [exact Hcs|].
  now apply initial_store_ok.
Qed.

(** The likes table is written by [like] alone. *)
Lemma run_keeps_likes_unique (c : Call) (s : Db) :
  likes_unique s -> likes_unique (run c s).
Proof.
  destruct c as [now u input|now u input|u id|u cid]; intros Hl; unfold run.
  - destruct (create_shape now u input s) as [added [E _]]. rewrite E.
    exact Hl.
  - destruct (edit_store now u input s) as [E|E]; rewrite E; exact Hl.
  - destruct (delete_store u id s) as [E|E]; rewrite E; exact Hl.
  - now apply like_keeps_likes_unique.
Qed.

Lemma run_all_keeps_likes_unique (cs : list Call) (s : Db) :
  likes_unique s -> likes_unique (run_all cs s).
Proof.
  revert s. induction cs as [|c cs IH]; intros s Hl; simpl.
  - exact Hl.
  - apply IH. now apply run_keeps_likes_unique.
Qed.

End Invariants.

Section LikeToggle.

Import Orm commentRouter Store.

(** C3.  [like] toggles the caller's Like row for the comment: an existing
    row is deleted and returned, otherwise the row is inserted and returned.
    Calls served one after the other never leave two rows for one
    (user, comment) pair, and two consecutive [like] calls by one user on one
    comment give back the likes the store had, the other tables untouched. *)
Theorem like_toggles (userId : string) (commentId : Z) (s : Db) :
  likes_unique s ->
  let row := mkLike userId commentId in
  let unmatched := fun l => negb (like_matches userId commentId l) in
  let r1 := like userId commentId s in
  let r2 := like userId commentId (snd r1) in
  (In row (likes s) ->
     fst r1 = Some row
     /\ likes (snd r1) = filter unmatched (likes s)
     /\ ~ In row (likes (snd r1)))
  /\ (~ In row (likes s) ->
     fst r1 = Some row /\ likes (snd r1) = likes s ++ [row])
  /\ likes_unique (snd r1)
  /\ (forall calls : list Call, likes_unique (run_all calls s))
  /\ Permutation (likes (snd r2)) (likes s)
  /\ comments (snd r2) = comments s
  /\ notifications (snd r2) = notifications s
  /\ posts (snd r2) = posts s.
Proof.
  intros Huniq row unmatched r1 r2. subst r1 r2.
  split; [|split; [|split; [|split; [|split]]]].
  - intros Hin. rewrite (like_present userId commentId s Hin). simpl.
    repeat split. apply unmatched_rows_absent.
  - intros Hnot. rewrite (like_absent userId commentId s Hnot). simpl.
    repeat split.
  - now apply like_keeps_likes_unique.
  - intros calls. now apply run_all_keeps_likes_unique.
  - destruct (like_row_dec userId commentId s) as [Hin|Hnot].
    + rewrite (like_present userId commentId s Hin). simpl.
      rewrite like_absent; simpl; [|apply unmatched_rows_absent].
      fold row. fold unmatched.
      assert (Hone : filter (like_matches userId commentId) (likes s) = [row]).
      { specialize (Huniq userId commentId).
        assert (Hf : In row (filter (like_matches userId commentId) (likes s))).
        { apply filter_In. split; [exact Hin|]. now apply like_matches_row. }
        destruct (filter (like_matches userId commentId) (likes s))
          as [|x [|y rest]] eqn:E.
        - destruct Hf.
        - destruct Hf as [->|[]]. reflexivity.
        - simpl in Huniq. lia. }
      apply Permutation_sym.
      eapply Permutation_trans;
        [apply (filter_split_perm (like_matches userId commentId))|].
      rewrite Hone. apply Permutation_app_comm.
    + rewrite (like_absent userId commentId s Hnot). simpl.
      rewrite like_present; simpl; [|apply in_or_app; right; now left].
      rewrite filter_app. simpl.
      assert (Hrow : like_matches userId commentId
                       (mkLike userId commentId) = true)
        by now apply like_matches_row.
      rewrite Hrow. simpl. rewrite app_nil_r.
      rewrite filter_all; [apply Permutation_refl|].
      intros x Hx. destruct (like_matches userId commentId x) eqn:Ex.
      * apply like_matches_row in Ex. subst x. contradiction.
      * reflexivity.
  - destruct (like_frame userId commentId (snd (like userId commentId s)))
      as [Ec [En [Ep _]]].
    destruct (like_frame userId commentId s) as [Ec' [En' [Ep' _]]].
    simpl in *. rewrite Ec, En, Ep. auto.
Qed.

End LikeToggle.

(** ** [create] *)

Section Create.

Import Orm commentRouter Store.

Variable now : Z.
Variable userId : string.
Variable input : SaveCommentInput.
Variable s : Db.

Let postId : string := save_postId input.
Let parentId : option Z := save_parentId input.
Let r : Result Z * Db := create now userId input s.

Ltac run_create :=
  unfold create, insert_comment, notify_reply, notify_post_owner; simpl.

(** C2.  On a store whose keys are well formed, a reply to a comment of
    another author appends exactly one NEW_REPLY_TO_YOUR_COMMENT addressed
    to that author, a top-level comment on a post of another author appends
    exactly one NEW_COMMENT_ON_YOUR_POST addressed to the post's author, and
    no call appends more than one notification. *)
Theorem create_notifies_once :
  generated_ids s ->
  authors_present s ->
  (forall (pid : Z) (parent : Comment),
      parentId = Some pid ->
      findFirst (comment_has_id pid) (comments s) = Some parent ->
      c_userId parent <> userId ->
      notifications (snd r) =
      notifications s ++
        [mkNotification userId NEW_REPLY_TO_YOUR_COMMENT postId
           (c_userId parent) (comment_seq s)])
  /\ (forall post : Post,
      parentId = None ->
      findFirst (post_has_id postId) (posts s) = Some post ->
      p_userId post <> userId ->
      notifications (snd r) =
      notifications s ++
        [mkNotification userId NEW_COMMENT_ON_YOUR_POST postId
           (p_userId post) (comment_seq s)])
  /\ (exists added : list Notification,
      notifications (snd r) = notifications s ++ added
      /\ (List.length added <= 1)%nat).
Proof.
  intros [_ Hgen] [Hac Hap]. subst r parentId postId.
  split; [|split].
  - intros pid parent Hpid Hfind Hneq.
    run_create. rewrite Hpid. simpl.
    destruct (findFirst_some _ _ _ Hfind) as [Hin Hid].
    rewrite Forall_forall in Hgen, Hac.
    assert (Ht : JS.truthy_number pid = true).
    { apply truthy_number_true. apply Z.eqb_eq in Hid.
      specialize (Hgen parent Hin). lia. }
    rewrite Ht. simpl. rewrite findFirst_app, Hfind.
    assert (Hu : JS.truthy_string (c_userId parent) = true)
      by (apply truthy_string_true; now apply Hac).
    apply String.eqb_neq in Hneq. rewrite Hu, Hneq. reflexivity.
  - intros post Hpid Hfind Hneq.
    run_create. rewrite Hpid, Hfind. simpl.
    destruct (findFirst_some _ _ _ Hfind) as [Hin _].
    rewrite Forall_forall in Hap.
    assert (Hu : JS.truthy_string (p_userId post) = true)
      by (apply truthy_string_true; now apply Hap).
    apply String.eqb_neq in Hneq. rewrite Hu, Hneq. reflexivity.
  - destruct (create_shape now userId input s) as [added [E Hlen]].
    exists added. rewrite E. simpl. split; [reflexivity | exact Hlen].
Qed.

(** With inserts that the store accepts, [create] resolves to the id of the
    row it inserted.  No notification is appended when the parent
    comment of a reply with a non-zero [parentId] is not found or was written
    by the caller, nor when [parentId] is unset or 0 and the post is not
    found or belongs to the caller. *)
Theorem create_succeeds_quietly :
  fst r = Ok (comment_seq s)
  /\ comments (snd r) =
     comments s ++
       [mkComment (comment_seq s) userId postId parentId (save_body input)
          now now]
  /\ (forall pid : Z,
      parentId = Some pid -> pid <> 0 ->
      findFirst (comment_has_id pid) (comments s) = None
      \/ (exists parent,
           findFirst (comment_has_id pid) (comments s) = Some parent
           /\ c_userId parent = userId) ->
      notifications (snd r) = notifications s)
  /\ (parentId = None \/ parentId = Some 0 ->
      findFirst (post_has_id postId) (posts s) = None
      \/ (exists post,
           findFirst (post_has_id postId) (posts s) = Some post
           /\ p_userId post = userId) ->
      notifications (snd r) = notifications s).
Proof.
  subst r parentId postId. split; [|split; [|split]].
  - destruct (create_shape now userId input s) as [added [E _]].
    now rewrite E.
  - destruct (create_shape now userId input s) as [added [E _]].
    now rewrite E.
  - intros pid Hpid Hnz Hparent.
    run_create. rewrite Hpid. simpl.
    apply truthy_number_true in Hnz. rewrite Hnz. simpl.
    rewrite findFirst_app.
    destruct Hparent as [Hnone|[parent [Hsome Hown]]].
    + rewrite Hnone. unfold findFirst. simpl.
      destruct (comment_has_id pid _); simpl; [|reflexivity].
      rewrite String.eqb_refl, andb_false_r. reflexivity.
    + rewrite Hsome. apply String.eqb_eq in Hown.
      rewrite Hown, andb_false_r. reflexivity.
  - intros Hpid Hpost.
    run_create.
    assert (Hfalsy : JS.truthy_opt JS.truthy_number (save_parentId input)
                     = false)
      by (destruct Hpid as [-> | ->]; reflexivity).
    rewrite Hfalsy. simpl.
    destruct Hpost as [Hnone|[post [Hsome Hown]]].
    + rewrite Hnone. reflexivity.
    + rewrite Hsome. simpl. apply String.eqb_eq in Hown.
      rewrite Hown, andb_false_r. reflexivity.
Qed.

End Create.

(** C8.  The call on which [create] departs from the property: a reply to
    comment 0, which is not stored, on a post of another user.  The row is
    inserted as a reply (its [parentId] is 0, so [get] does not list it as a
    top-level comment of the post), yet [!parentId] holds and the owner of
    the post is sent NEW_COMMENT_ON_YOUR_POST, the notification of a
    top-level comment, where a reply to a missing comment notifies nobody. *)
Lemma create_parent_zero_notifies :
  let input := mkSaveComment "hello" "p1" (Some 0) in
  let r := commentRouter.create 5 "alice" input Sample.fresh_db in
  save_parentId input = Some 0
  /\ Orm.findFirst (Orm.comment_has_id 0) (comments Sample.fresh_db) = None
  /\ fst r = Ok 1
  /\ comments (snd r) = [mkComment 1 "alice" "p1" (Some 0) "hello" 5 5]
  /\ data (commentRouter.get None "p1" (snd r)) = []
  /\ count (commentRouter.get None "p1" (snd r)) = 1%nat
  /\ notifications Sample.fresh_db = []
  /\ notifications (snd r) =
     [mkNotification "alice" NEW_COMMENT_ON_YOUR_POST "p1" "bob" 1]
  /\ notifications
       (snd (commentRouter.create 5 "alice"
               (mkSaveComment "hello" "p1" (Some 4)) Sample.fresh_db)) = [].
Proof. repeat split. Qed.

(** ** [get]: the fetched tree *)

Section Fetch.

Import Orm Prisma commentRouter Thread Store.

Lemma Select_induction (P : Select -> Prop) :
  (forall c, P (SelectComment c None)) ->
  (forall c sel, P sel -> P (SelectComment c (Some sel))) ->
  forall sel, P sel.
Proof.
  intros Hleaf Hnode. fix IH 1. intros [c [sel|]].
  - apply Hnode. apply IH.
  - apply Hleaf.
Qed.

Lemma insert_desc_In (c x : Comment) (rows : list Comment) :
  In x (insert_desc c rows) <-> x = c \/ In x rows.
Proof.
  induction rows as [|a rows IH]; simpl.
  - intuition.
  - destruct (c_createdAt a <=? c_createdAt c); simpl.
    + intuition.
    + rewrite IH. intuition.
Qed.

(** Ordering the rows neither drops nor invents one. *)
Lemma orderBy_In (x : Comment) (rows : list Comment) :
  In x (orderBy_createdAt_desc rows) <-> In x rows.
Proof.
  unfold orderBy_createdAt_desc. induction rows as [|a rows IH]; simpl.
  - tauto.
  - rewrite insert_desc_In, IH. intuition.
Qed.

Lemma is_child_of_parent (id : Z) (c : Comment) :
  is_child_of id c = true <-> c_parentId c = Some id.
Proof.
  unfold is_child_of. destruct (c_parentId c) as [p|].
  - rewrite Z.eqb_eq. split; [now intros -> | now intros [= ->]].
  - split; discriminate.
Qed.

Variable s : Db.
Variable userId : option string.

Lemma shaped_id (sel : Select) (row : Comment) :
  sh_id (shapeComment userId (select_comment s sel row)) = c_id row.
Proof. destruct sel as [c [sel|]]; reflexivity. Qed.

Lemma shaped_youLikedThis (sel : Select) (row : Comment) :
  sh_youLikedThis (shapeComment userId (select_comment s sel row)) =
  existsb (fun obj => JS.strict_eq_opt (Some obj) userId)
    (map l_userId
       (filter (likes_where (select_config sel))
          (filter (liked_comment (c_id row)) (likes s)))).
Proof. destruct sel as [c [sel|]]; reflexivity. Qed.

(** Every node below a fetched row is itself the shaped fetch of a stored
    row, no deeper than the [select] reaches, at the depth at which the row
    is stored. *)
Lemma nodes_from_select (sel : Select) :
  forall (row : Comment) (d0 d : nat) (n : ShapedResponse),
    In row (comments s) ->
    stored_depth s (c_id row) d0 ->
    In (d, n)
       (nodes_from d0 (shapeComment userId (select_comment s sel row))) ->
    exists (sel' : Select) (row' : Comment),
      n = shapeComment userId (select_comment s sel' row')
      /\ In row' (comments s)
      /\ In (select_config sel') (select_configs sel)
      /\ (d <= d0 + select_depth sel)%nat
      /\ stored_depth s (c_id row') d.
Proof.
  induction sel as [c|c sel IH] using Select_induction;
    intros row d0 d n Hrow Hdepth Hin.
  - simpl in Hin. destruct Hin as [Heq|[]]. injection Heq as <- <-.
    exists (SelectComment c None), row. simpl.
    repeat split; auto. lia.
  - simpl in Hin. destruct Hin as [Heq|Hin].
    + injection Heq as <- <-.
      exists (SelectComment c (Some sel)), row. simpl.
      repeat split; auto. lia.
    + apply in_flat_map in Hin. destruct Hin as [x [Hx Hin]].
      apply in_map_iff in Hx. destruct Hx as [raw [<- Hraw]].
      apply in_map_iff in Hraw. destruct Hraw as [child [<- Hchild]].
      apply filter_In in Hchild. destruct Hchild as [Hchild Hparent].
      apply is_child_of_parent in Hparent.
      destruct (IH child (S d0) d n Hchild
                  (depth_reply s child (c_id row) d0 Hchild Hparent Hdepth)
                  Hin)
        as [sel' [row' [Hn [Hrow' [Hcfg [Hle Hd]]]]]].
      exists sel', row'. simpl. repeat split; auto. lia.
Qed.

(** Every node of [findMany]'s shaped result comes from a stored row. *)
Lemma nodes_of_findMany (postId : string) (sel : Select) (d : nat)
    (n : ShapedResponse) :
  In (d, n)
     (nodes_with_depth (shapeComments userId (findMany s postId sel))) ->
  exists (sel' : Select) (row' : Comment),
    n = shapeComment userId (select_comment s sel' row')
    /\ In row' (comments s)
    /\ In (select_config sel') (select_configs sel)
    /\ (d <= select_depth sel)%nat
    /\ stored_depth s (c_id row') d.
Proof.
  unfold nodes_with_depth, shapeComments, findMany. intros Hin.
  apply in_flat_map in Hin. destruct Hin as [x [Hx Hin]].
  apply in_map_iff in Hx. destruct Hx as [raw [<- Hraw]].
  apply in_map_iff in Hraw. destruct Hraw as [top [<- Htop]].
  apply (proj1 (orderBy_In _ _)) in Htop. apply filter_In in Htop.
  destruct Htop as [Htop Hcond].
  unfold is_top_level_of in Hcond. apply andb_true_iff in Hcond.
  destruct Hcond as [_ Hnull].
  assert (Hp : c_parentId top = None)
    by (destruct (c_parentId top); [discriminate | reflexivity]).
  exact (nodes_from_select sel top 0 d n Htop (depth_top s top Htop Hp) Hin).
Qed.

(** With the id as key, a row sits at one depth only. *)
Lemma stored_depth_unique (id : Z) (k1 k2 : nat) :
  unique_ids s ->
  stored_depth s id k1 -> stored_depth s id k2 -> k1 = k2.
Proof.
  intros Huniq H1. revert k2.
  assert (Hkey : forall a b, In a (comments s) -> In b (comments s) ->
                             c_id a = c_id b -> a = b).
  { unfold unique_ids in Huniq. revert Huniq.
    induction (comments s) as [|x l IHl]; simpl; intros Hnd a b Ha Hb Hab.
    - destruct Ha.
    - inversion Hnd as [|y l' Hnotin Hnd']; subst.
      destruct Ha as [<-|Ha], Hb as [<-|Hb].
      + reflexivity.
      + exfalso. apply Hnotin. rewrite Hab. now apply in_map.
      + exfalso. apply Hnotin. rewrite <- Hab. now apply in_map.
      + now apply IHl. }
  induction H1 as [c Hc Hp|c p k Hc Hp Hrec IH]; intros k2 H2.
  - inversion H2 as [c' Hc' Hp' Hid|c' p' k' Hc' Hp' Hrec' Hid]; subst.
    + reflexivity.
    + rewrite (Hkey c' c Hc' Hc Hid) in Hp'. congruence.
  - inversion H2 as [c' Hc' Hp' Hid|c' p' k' Hc' Hp' Hrec' Hid]; subst.
    + rewrite (Hkey c' c Hc' Hc Hid) in Hp'. congruence.
    + rewrite (Hkey c' c Hc' Hc Hid) in Hp'.
      assert (p' = p) by congruence. subst p'.
      f_equal. now apply IH.
Qed.

End Fetch.

(** ** [get]: the returned values *)

Section Get.

Import Orm Prisma commentRouter Thread Store.

Variable userId : option string.
Variable postId : string.
Variable s : Db.

Lemma response_select_depth : select_depth (response_select userId) = 6%nat.
Proof. reflexivity. Qed.

Lemma response_select_configs (c : ChildConfig) :
  In c (select_configs (response_select userId)) ->
  c = SELECT_CHILD_CONFIG userId.
Proof. simpl. intuition. Qed.

(** C1.  [get] is total (it has no failing path) and every node it returns
    lies at most 6 levels below its top-level comment; a comment stored more
    than 6 levels down is on no node of the result. *)
Theorem get_depth_cutoff :
  let nodes := nodes_with_depth (data (get userId postId s)) in
  (forall (d : nat) (n : ShapedResponse), In (d, n) nodes -> (d <= 6)%nat)
  /\ (unique_ids s ->
      forall (id : Z) (k : nat),
        stored_depth s id k -> (6 < k)%nat ->
        forall (d : nat) (n : ShapedResponse),
          In (d, n) nodes -> sh_id n <> id).
Proof.
  simpl. split.
  - intros d n Hin.
    destruct (nodes_of_findMany s userId postId _ d n Hin)
      as [sel' [row' [_ [_ [_ [Hle _]]]]]].
    now rewrite response_select_depth in Hle.
  - intros Huniq id k Hk Hdeep d n Hin Hid.
    destruct (nodes_of_findMany s userId postId _ d n Hin)
      as [sel' [row' [Hn [_ [_ [Hle Hd]]]]]].
    rewrite response_select_depth in Hle.
    subst n. rewrite shaped_id in Hid. rewrite Hid in Hd.
    pose proof (stored_depth_unique s id d k Huniq Hd Hk). lia.
Qed.

Lemma count_where_filter (rows : list Comment) :
  count_where postId rows =
  List.length (filter (fun c => String.eqb (c_postId c) postId) rows).
Proof.
  induction rows as [|c rows IH]; simpl.
  - reflexivity.
  - destruct (String.eqb (c_postId c) postId); simpl; now rewrite IH.
Qed.

(** C4.  [count] is the number of stored comments of the post, whatever
    their place in a thread: it is the same however the rows are threaded,
    so rows below the cutoff of [data] are counted too. *)
Theorem get_count_all_depths :
  count (get userId postId s) =
  List.length (filter (fun c => String.eqb (c_postId c) postId) (comments s))
  /\ (forall parent_of : Comment -> option Z,
      count (get userId postId (rethread parent_of s)) =
      count (get userId postId s)).
Proof.
  split.
  - simpl. unfold comment_count. apply count_where_filter.
  - intros parent_of. simpl. unfold comment_count, rethread. simpl.
    induction (comments s) as [|c rows IH]; simpl.
    + reflexivity.
    + destruct (String.eqb (c_postId c) postId); now rewrite IH.
Qed.

Lemma caller_like_selected (id : Z) :
  existsb (fun obj => JS.strict_eq_opt (Some obj) userId)
    (map l_userId
       (filter (likes_where (SELECT_CHILD_CONFIG userId))
          (filter (liked_comment id) (likes s)))) = true
  <-> exists caller, userId = Some caller /\ In (mkLike caller id) (likes s).
Proof.
  rewrite existsb_exists. split.
  - intros [x [Hx Heq]]. destruct userId as [caller|]; [|discriminate].
    simpl in Heq. apply String.eqb_eq in Heq. subst x.
    exists caller. split; [reflexivity|].
    apply in_map_iff in Hx. destruct Hx as [l [Hl Hin]].
    apply filter_In in Hin. destruct Hin as [Hin _].
    apply filter_In in Hin. destruct Hin as [Hin Hc].
    unfold liked_comment in Hc. apply Z.eqb_eq in Hc.
    destruct l as [lu lc]. simpl in *. now subst.
  - intros [caller [Hu Hin]]. exists caller. split.
    + apply in_map_iff. exists (mkLike caller id). split; [reflexivity|].
      apply filter_In. split.
      * apply filter_In. split; [exact Hin|].
        unfold liked_comment. simpl. apply Z.eqb_refl.
      * rewrite Hu. unfold likes_where, SELECT_CHILD_CONFIG. simpl.
        destruct (JS.truthy_string caller); simpl;
          [apply String.eqb_refl | reflexivity].
    + rewrite Hu. simpl. apply String.eqb_refl.
Qed.

(** C5.  On every node that [get] returns, [youLikedThis] holds exactly when
    the store has the caller's Like row for that comment; on an anonymous
    read it is false on every node. *)
Theorem get_youLikedThis (d : nat) (n : ShapedResponse) :
  In (d, n) (nodes_with_depth (data (get userId postId s))) ->
  (userId = None -> sh_youLikedThis n = false)
  /\ (forall caller : string,
      userId = Some caller ->
      (sh_youLikedThis n = true <-> In (mkLike caller (sh_id n)) (likes s))).
Proof.
  simpl. intros Hin.
  destruct (nodes_of_findMany s userId postId _ d n Hin)
    as [sel' [row' [Hn [_ [Hcfg _]]]]].
  apply response_select_configs in Hcfg. subst n.
  rewrite shaped_youLikedThis, shaped_id, Hcfg. split.
  - intros Hanon.
    destruct (existsb _ _) eqn:E; [|reflexivity].
    apply caller_like_selected in E. destruct E as [caller [Hu _]].
    congruence.
  - intros caller Hu. rewrite caller_like_selected. split.
    + intros [caller' [Hu' Hlike]]. congruence.
    + intros Hlike. now exists caller.
Qed.

End Get.

(** * The properties on the sample stores *)

Section Instances.

Import Orm commentRouter Thread Store Sample.

Lemma edit_non_owner_forbidden_witness :
  findFirst (comment_has_id 1) (comments small_db)
  = Some (reply 1 "alice" None)
  /\ "alice" <> "bob"
  /\ edit 5 "bob" (mkEditComment "hi" 1) small_db
     = (Throw (TRPCError FORBIDDEN), small_db).
Proof.
  assert (H1 : findFirst (comment_has_id 1) (comments small_db)
               = Some (reply 1 "alice" None)) by reflexivity.
  assert (H2 : "alice" <> "bob") by discriminate.
  split; [exact H1|]. split; [exact H2|].
  exact (edit_non_owner_forbidden 5 "bob" small_db (mkEditComment "hi" 1)
           (reply 1 "alice" None) H1 H2).
Defined.

Lemma edit_same_body_noop_witness :
  edit 5 "alice" (mkEditComment "text" 1) small_db
  = (Ok (CurrentComment (reply 1 "alice" None)), small_db).
Proof.
  exact (edit_same_body_noop 5 "alice" small_db (mkEditComment "text" 1)
           (reply 1 "alice" None) eq_refl eq_refl eq_refl).
Defined.

Lemma edit_updates_body_only_witness :
  "text" <> "hi"
  /\ fst (edit 5 "alice" (mkEditComment "hi" 1) small_db)
     = Ok (UpdatedComment (mkQueryResult 1))
  /\ comments (snd (edit 5 "alice" (mkEditComment "hi" 1) small_db))
     = [mkComment 1 "alice" "p1" None "hi" 1 5].
Proof.
  assert (H : "text" <> "hi") by discriminate.
  split; [exact H|].
  destruct (edit_updates_body_only 5 "alice" small_db (mkEditComment "hi" 1)
              (reply 1 "alice" None) eq_refl eq_refl H)
    as [Hres _].
  split; [exact Hres | reflexivity].
Defined.

Lemma edit_delete_missing_forbidden_witness :
  edit 5 "alice" (mkEditComment "hi" 7) small_db
  = (Throw (TRPCError FORBIDDEN), small_db)
  /\ delete "alice" 7 small_db = (Throw (TRPCError FORBIDDEN), small_db).
Proof.
  assert (H : forall c, In c (comments small_db) -> c_id c <> 7).
  { intros c [<-|[]]. simpl. lia. }
  destruct (edit_delete_missing_forbidden 5 "alice" small_db
              (mkEditComment "hi" 7) 7 H H) as [He [Hd _]].
  split; [exact He | exact Hd].
Defined.

Lemma thread_db_likes_unique : likes_unique thread_db.
Proof.
  intros u c. cbn [thread_db likes filter].
  assert (E : like_matches u c (mkLike "alice" 2)
              && like_matches u c (mkLike "bob" 2) = false).
  { unfold like_matches. cbn [l_userId l_commentId].
    destruct (String.eqb_spec "alice" u) as [<-|Hu]; [|reflexivity].
    change ("bob" =? "alice")%string with false. cbn [andb].
    now rewrite andb_false_r. }
  destruct (like_matches u c (mkLike "alice" 2)),
           (like_matches u c (mkLike "bob" 2));
    simpl; solve [lia | discriminate E].
Qed.

Lemma like_toggles_witness :
  likes_unique thread_db
  /\ fst (like "alice" 2 thread_db) = Some (mkLike "alice" 2)
  /\ likes (snd (like "alice" 2 thread_db)) = [mkLike "bob" 2]
  /\ Permutation
       (likes (snd (like "alice" 2 (snd (like "alice" 2 thread_db)))))
       (likes thread_db).
Proof.
  split; [exact thread_db_likes_unique|].
  destruct (like_toggles "alice" 2 thread_db thread_db_likes_unique)
    as [Hpresent [_ [_ [_ [Hperm _]]]]].
  destruct (Hpresent (or_introl eq_refl)) as [Hres [Hlikes _]].
  split; [exact Hres|]. split; [exact Hlikes | exact Hperm].
Defined.

Lemma small_db_generated_ids : generated_ids small_db.
Proof. split; [reflexivity|]. repeat constructor. Qed.

Lemma small_db_authors_present : authors_present small_db.
Proof. split; repeat constructor; discriminate. Qed.

Lemma create_notifies_once_witness :
  generated_ids small_db
  /\ authors_present small_db
  /\ notifications
       (snd (create 5 "bob" (mkSaveComment "hi" "p1" (Some 1)) small_db))
     = [mkNotification "bob" NEW_REPLY_TO_YOUR_COMMENT "p1" "alice" 2].
Proof.
  split; [exact small_db_generated_ids|].
  split; [exact small_db_authors_present|].
  destruct (create_notifies_once 5 "bob" (mkSaveComment "hi" "p1" (Some 1))
              small_db small_db_generated_ids small_db_authors_present)
    as [Hreply _].
  refine (Hreply 1 (reply 1 "alice" None) eq_refl eq_refl _). discriminate.
Defined.

Lemma create_succeeds_quietly_witness :
  fst (create 5 "alice" (mkSaveComment "hi" "p1" (Some 4)) fresh_db) = Ok 1
  /\ notifications
       (snd (create 5 "alice" (mkSaveComment "hi" "p1" (Some 4)) fresh_db))
     = [].
Proof.
  destruct (create_succeeds_quietly 5 "alice"
              (mkSaveComment "hi" "p1" (Some 4)) fresh_db)
    as [Hres [_ [Hreply _]]].
  split; [exact Hres|].
  refine (Hreply 4 eq_refl _ (or_introl eq_refl)). discriminate.
Defined.

Lemma thread_db_unique_ids : unique_ids thread_db.
Proof.
  unfold unique_ids. simpl.
  repeat (constructor; [simpl; intuition discriminate|]). constructor.
Qed.

Lemma thread_db_depth_8 : stored_depth thread_db 8 7.
Proof.
  apply (depth_reply thread_db (reply 8 "bob" (Some 7)) 7 6);
    [simpl; tauto | reflexivity |].
  apply (depth_reply thread_db (reply 7 "alice" (Some 6)) 6 5);
    [simpl; tauto | reflexivity |].
  apply (depth_reply thread_db (reply 6 "bob" (Some 5)) 5 4);
    [simpl; tauto | reflexivity |].
  apply (depth_reply thread_db (reply 5 "alice" (Some 4)) 4 3);
    [simpl; tauto | reflexivity |].
  apply (depth_reply thread_db (reply 4 "bob" (Some 3)) 3 2);
    [simpl; tauto | reflexivity |].
  apply (depth_reply thread_db (reply 3 "alice" (Some 2)) 2 1);
    [simpl; tauto | reflexivity |].
  apply (depth_reply thread_db (reply 2 "bob" (Some 1)) 1 0);
    [simpl; tauto | reflexivity |].
  apply (depth_top thread_db (reply 1 "alice" None));
    [simpl; tauto | reflexivity].
Qed.

Lemma get_depth_cutoff_witness :
  unique_ids thread_db
  /\ stored_depth thread_db 8 7
  /\ In liked_node
        (nodes_with_depth (data (get (Some "alice") "p1" thread_db)))
  /\ (fst liked_node <= 6)%nat
  /\ sh_id (snd liked_node) <> 8.
Proof.
  assert (Hin : In liked_node
                  (nodes_with_depth
                     (data (get (Some "alice") "p1" thread_db))))
    by (vm_compute; tauto).
  split; [exact thread_db_unique_ids|].
  split; [exact thread_db_depth_8|].
  split; [exact Hin|].
  destruct (get_depth_cutoff (Some "alice") "p1" thread_db) as [Hle Habsent].
  split.
  - exact (Hle (fst liked_node) (snd liked_node) Hin).
  - refine (Habsent thread_db_unique_ids 8 7%nat thread_db_depth_8 _
              (fst liked_node) (snd liked_node) Hin).
    repeat constructor.
Defined.

Lemma get_youLikedThis_witness :
  In liked_node (nodes_with_depth (data (get (Some "alice") "p1" thread_db)))
  /\ (sh_youLikedThis (snd liked_node) = true
      <-> In (mkLike "alice" 2) (likes thread_db)).
Proof.
  assert (Hin : In liked_node
                  (nodes_with_depth
                     (data (get (Some "alice") "p1" thread_db))))
    by (vm_compute; tauto).
  split; [exact Hin|].
  destruct (get_youLikedThis (Some "alice") "p1" thread_db
              (fst liked_node) (snd liked_node) Hin) as [_ Hiff].
  exact (Hiff "alice" eq_refl).
Defined.

(** The thread of eight on [p1]: all eight rows are counted, seven nodes are
    returned, and comment 8 is on none of them. *)
Example get_thread_db :
  count (get None "p1" thread_db) = 8%nat
  /\ map (fun x => (fst x, sh_id (snd x)))
         (nodes_with_depth (data (get None "p1" thread_db)))
     = [(0%nat, 1); (1%nat, 2); (2%nat, 3); (3%nat, 4); (4%nat, 5);
        (5%nat, 6); (6%nat, 7)].
Proof. split; reflexivity. Qed.

End Instances.

(** * Further properties of the procedures *)

(** ** [delete] and repeated [edit] *)

Section DeleteOwner.

Import Orm commentRouter Store.

Variable userId : string.
Variable id : Z.
Variable s : Db.

Lemma findFirst_has_id (rows : list Comment) (c : Comment) :
  findFirst (comment_has_id id) rows = Some c -> c_id c = id.
Proof.
  intros H. apply findFirst_some in H. destruct H as [_ H].
  now apply Z.eqb_eq in H.
Qed.

Lemma findFirst_after_delete :
  findFirst (comment_has_id id)
    (filter (fun c => negb (comment_has_id id c)) (comments s)) = None.
Proof.
  apply findFirst_none_iff. intros x Hx. apply filter_In in Hx.
  destruct Hx as [_ Hx]. now apply negb_true_iff in Hx.
Qed.

(** X1.  A [delete] by the owner resolves to the id.  Afterwards no row has
    that id, and the call has added nothing: every comment, like and
    notification that is left was there before, and the posts and the id
    sequence are as they were. *)
Theorem delete_by_owner (cc : Comment) :
  findFirst (comment_has_id id) (comments s) = Some cc ->
  c_userId cc = userId ->
  let r := delete userId id s in
  fst r = Ok id
  /\ findFirst (comment_has_id id) (comments (snd r)) = None
  /\ (forall c, In c (comments (snd r)) -> In c (comments s) /\ c_id c <> id)
  /\ incl (likes (snd r)) (likes s)
  /\ incl (notifications (snd r)) (notifications s)
  /\ posts (snd r) = posts s
  /\ comment_seq (snd r) = comment_seq s.
Proof.
  intros Hfind Hown r. subst r. unfold delete. rewrite Hfind. simpl.
  apply String.eqb_eq in Hown. rewrite Hown. simpl.
  pose proof (findFirst_filter_hd (comment_has_id id) (comments s)) as Hhd.
  rewrite Hfind in Hhd.
  destruct (filter (comment_has_id id) (comments s)) as [|deleted rest];
    [discriminate Hhd|].
  simpl in Hhd. injection Hhd as ->. simpl.
  split; [f_equal; now apply (findFirst_has_id (comments s))|].
  split; [apply findFirst_after_delete|].
  split.
  - intros c Hc. apply filter_In in Hc. destruct Hc as [Hc Hkeep].
    split; [exact Hc|]. unfold comment_has_id in Hkeep.
    now rewrite negb_true_iff, Z.eqb_neq in Hkeep.
  - repeat split; apply incl_refl.
Qed.

(** X2.  A [delete] of a comment stored under another user's id throws
    FORBIDDEN and leaves the store as it was. *)
Theorem delete_non_owner_forbidden (cc : Comment) :
  findFirst (comment_has_id id) (comments s) = Some cc ->
  c_userId cc <> userId ->
  delete userId id s = (Throw (TRPCError FORBIDDEN), s).
Proof.
  intros Hfind Hneq. unfold delete. rewrite Hfind. simpl.
  apply String.eqb_neq in Hneq. rewrite Hneq. reflexivity.
Qed.

(** X3.  Once the owner has deleted a comment, a further [delete] or [edit]
    of that id by any caller throws FORBIDDEN and changes nothing. *)
Theorem delete_then_forbidden (cc : Comment) (now : Z) (other : string)
    (body : string) :
  findFirst (comment_has_id id) (comments s) = Some cc ->
  c_userId cc = userId ->
  let s1 := snd (delete userId id s) in
  delete other id s1 = (Throw (TRPCError FORBIDDEN), s1)
  /\ edit now other (mkEditComment body id) s1
     = (Throw (TRPCError FORBIDDEN), s1).
Proof.
  intros Hfind Hown s1.
  assert (Hgone : findFirst (comment_has_id id) (comments s1) = None).
  { subst s1. unfold delete. rewrite Hfind. simpl.
    apply String.eqb_eq in Hown. rewrite Hown. simpl.
    destruct (filter (comment_has_id id) (comments s));
      apply findFirst_after_delete. }
  unfold delete, edit. simpl. rewrite Hgone. simpl. split; reflexivity.
Qed.

End DeleteOwner.

Section EditAgain.

Import Orm commentRouter Store.

Lemma findFirst_set_body (now id : Z) (body : string) (rows : list Comment) :
  findFirst (comment_has_id id) (map (set_body now id body) rows) =
  option_map (set_body now id body) (findFirst (comment_has_id id) rows).
Proof.
  unfold findFirst. induction rows as [|c rows IH]; simpl.
  - reflexivity.
  - unfold comment_has_id at 1. rewrite set_body_id.
    fold (comment_has_id id c).
    destruct (comment_has_id id c); [reflexivity | exact IH].
Qed.

(** X4.  After an [edit] by the owner has written a new body, the same
    [edit] again finds the row with that body, resolves to it and writes
    nothing; the row still belongs to the owner. *)
Theorem edit_again_is_noop (now now' : Z) (userId : string)
    (input : EditCommentInput) (s : Db) (cc : Comment) :
  findFirst (comment_has_id (edit_id input)) (comments s) = Some cc ->
  c_userId cc = userId ->
  c_body cc <> edit_body input ->
  let s1 := snd (edit now userId input s) in
  exists row : Comment,
    edit now' userId input s1 = (Ok (CurrentComment row), s1)
    /\ c_id row = edit_id input
    /\ c_body row = edit_body input
    /\ c_userId row = userId
    /\ c_createdAt row = c_createdAt cc.
Proof.
  intros Hfind Hown Hbody s1.
  assert (Hs1 : s1 = with_comments s
                       (map (set_body now (edit_id input) (edit_body input))
                            (comments s)) (comment_seq s)).
  { subst s1. unfold edit. rewrite Hfind. simpl.
    apply String.eqb_eq in Hown. rewrite Hown. simpl.
    apply String.eqb_neq in Hbody. rewrite Hbody. reflexivity. }
  pose proof (findFirst_has_id (edit_id input) (comments s) cc Hfind) as Hid.
  exists (set_body now (edit_id input) (edit_body input) cc).
  assert (Hrow : set_body now (edit_id input) (edit_body input) cc =
                 mkComment (c_id cc) (c_userId cc) (c_postId cc)
                   (c_parentId cc) (edit_body input) (c_createdAt cc) now).
  { unfold set_body, comment_has_id. rewrite Hid, Z.eqb_refl. reflexivity. }
  split.
  - rewrite Hs1. unfold edit. simpl. rewrite findFirst_set_body, Hfind.
    simpl. rewrite Hrow. simpl.
    apply String.eqb_eq in Hown. rewrite Hown. simpl.
    rewrite String.eqb_refl. reflexivity.
  - rewrite Hrow. simpl. repeat split; assumption.
Qed.

End EditAgain.

(** ** [get]: order, counters, children and reach *)

Section GetMore.

Import Orm Prisma commentRouter Thread Store View.

Variable userId : option string.
Variable s : Db.

Lemma shaped_likeCount (sel : Select) (row : Comment) :
  sh_likeCount (shapeComment userId (select_comment s sel row))
  = likes_on s (c_id row).
Proof. destruct sel as [c [sel|]]; reflexivity. Qed.

Lemma shaped_createdAt (sel : Select) (row : Comment) :
  sh_createdAt (shapeComment userId (select_comment s sel row))
  = c_createdAt row.
Proof. destruct sel as [c [sel|]]; reflexivity. Qed.

Lemma nodes_from_head (d : nat) (n : ShapedResponse) :
  In (d, n) (nodes_from d n).
Proof. destruct n. simpl. now left. Qed.

Lemma shaped_ids (sel : Select) (rows : list Comment) :
  map sh_id (map (shapeComment userId) (map (select_comment s sel) rows))
  = map c_id rows.
Proof.
  rewrite !map_map. apply map_ext. intros row. apply shaped_id.
Qed.

(** A node at depth [d] was fetched with the part of the [select] that is
    left [d] levels down. *)
Lemma nodes_from_select_level (sel : Select) :
  forall (row : Comment) (d0 d : nat) (n : ShapedResponse),
    In (d, n)
       (nodes_from d0 (shapeComment userId (select_comment s sel row))) ->
    exists (sel' : Select) (row' : Comment),
      n = shapeComment userId (select_comment s sel' row')
      /\ (d + select_depth sel' = d0 + select_depth sel)%nat.
Proof.
  induction sel as [c|c sel IH] using Select_induction;
    intros row d0 d n Hin.
  - simpl in Hin. destruct Hin as [Heq|[]]. injection Heq as <- <-.
    now exists (SelectComment c None), row.
  - simpl in Hin. destruct Hin as [Heq|Hin].
    + injection Heq as <- <-. now exists (SelectComment c (Some sel)), row.
    + apply in_flat_map in Hin. destruct Hin as [x [Hx Hin]].
      apply in_map_iff in Hx. destruct Hx as [raw [<- Hraw]].
      apply in_map_iff in Hraw. destruct Hraw as [child [<- _]].
      destruct (IH child (S d0) d n Hin) as [sel' [row' [Hn Hlevel]]].
      exists sel', row'. split; [exact Hn|]. simpl. lia.
Qed.

Lemma nodes_of_get_level (postId : string) (d : nat) (n : ShapedResponse) :
  In (d, n) (nodes_with_depth (data (get userId postId s))) ->
  exists (sel' : Select) (row' : Comment),
    n = shapeComment userId (select_comment s sel' row')
    /\ (d + select_depth sel' = 6)%nat.
Proof.
  simpl. unfold nodes_with_depth, shapeComments, findMany. intros Hin.
  apply in_flat_map in Hin. destruct Hin as [x [Hx Hin]].
  apply in_map_iff in Hx. destruct Hx as [raw [<- Hraw]].
  apply in_map_iff in Hraw. destruct Hraw as [top [<- _]].
  exact (nodes_from_select_level _ top 0 d n Hin).
Qed.

Lemma insert_desc_perm (c : Comment) (rows : list Comment) :
  Permutation (insert_desc c rows) (c :: rows).
Proof.
  induction rows as [|x rows IH]; simpl.
  - apply Permutation_refl.
  - destruct (c_createdAt x <=? c_createdAt c).
    + apply Permutation_refl.
    + eapply Permutation_trans; [apply perm_skip, IH | apply perm_swap].
Qed.

Lemma orderBy_perm (rows : list Comment) :
  Permutation (orderBy_createdAt_desc rows) rows.
Proof.
  unfold orderBy_createdAt_desc. induction rows as [|c rows IH]; simpl.
  - constructor.
  - eapply Permutation_trans; [apply insert_desc_perm | now constructor].
Qed.

Lemma insert_desc_sorted (c : Comment) (rows : list Comment) :
  StronglySorted Z.ge (map c_createdAt rows) ->
  StronglySorted Z.ge (map c_createdAt (insert_desc c rows)).
Proof.
  induction rows as [|x rows IH]; simpl; intros Hs.
  - repeat constructor.
  - inversion Hs as [|k ks Hrest Hall]; subst.
    destruct (Z.leb_spec (c_createdAt x) (c_createdAt c)) as [Hle|Hgt]; simpl.
    + constructor; [exact Hs|]. constructor; [lia|].
      eapply Forall_impl; [|exact Hall]. simpl. intros y Hy. lia.
    + constructor; [now apply IH|].
      apply Forall_forall. intros y Hy. apply in_map_iff in Hy.
      destruct Hy as [z [<- Hz]]. apply insert_desc_In in Hz.
      destruct Hz as [->|Hz]; [lia|].
      rewrite Forall_forall in Hall. apply Hall. now apply in_map.
Qed.

Lemma orderBy_sorted (rows : list Comment) :
  StronglySorted Z.ge (map c_createdAt (orderBy_createdAt_desc rows)).
Proof.
  unfold orderBy_createdAt_desc. induction rows as [|c rows IH]; simpl.
  - constructor.
  - now apply insert_desc_sorted.
Qed.

(** X5.  The top-level entries of [data] are the stored comments of the post
    that have no parent, each once, newest first. *)
Theorem get_top_level_newest_first (postId : string) :
  let tops := data (get userId postId s) in
  Permutation (map sh_id tops)
              (map c_id (filter (is_top_level_of postId) (comments s)))
  /\ StronglySorted Z.ge (map sh_createdAt tops).
Proof.
  simpl. unfold shapeComments, findMany. split.
  - rewrite shaped_ids. apply Permutation_map. apply orderBy_perm.
  - rewrite !map_map.
    erewrite map_ext; [apply orderBy_sorted|].
    intros row. apply shaped_createdAt.
Qed.

(** X6.  On every returned node [likeCount] is the number of Like rows on
    that comment, whoever reads; a node flagged [youLikedThis] has a
    [likeCount] of at least one. *)
Theorem get_likeCount (postId : string) (d : nat) (n : ShapedResponse) :
  In (d, n) (nodes_with_depth (data (get userId postId s))) ->
  sh_likeCount n = likes_on s (sh_id n)
  /\ (sh_youLikedThis n = true -> (1 <= sh_likeCount n)%nat).
Proof.
  intros Hin.
  destruct (nodes_of_get_level postId d n Hin) as [sel' [row' [-> _]]].
  rewrite shaped_likeCount, shaped_id, shaped_youLikedThis.
  split; [reflexivity|].
  intros Hliked. apply existsb_exists in Hliked.
  destruct Hliked as [x [Hx _]]. apply in_map_iff in Hx.
  destruct Hx as [l [_ Hl]]. apply filter_In in Hl. destruct Hl as [Hl _].
  unfold likes_on.
  destruct (filter (liked_comment (c_id row')) (likes s)); [destruct Hl|].
  simpl. lia.
Qed.

(** X7.  A returned node above level 6 always carries a [children] list,
    which holds the stored replies to it, each once (empty when there are
    none), in an order that is the store's; a node at level 6 carries no
    [children] key. *)
Theorem get_children_key (postId : string) (d : nat) (n : ShapedResponse) :
  In (d, n) (nodes_with_depth (data (get userId postId s))) ->
  ((d < 6)%nat ->
     exists ch,
       sh_children n = Some ch
       /\ Permutation
            (map sh_id ch)
            (map c_id (filter (is_child_of (sh_id n)) (comments s))))
  /\ (d = 6%nat -> sh_children n = None).
Proof.
  intros Hin.
  destruct (nodes_of_get_level postId d n Hin)
    as [[c [sel|]] [row' [-> Hlevel]]]; simpl in Hlevel.
  - split; [|intros Hd; lia]. intros _.
    eexists. split; [reflexivity|]. simpl. rewrite shaped_ids.
    apply Permutation_refl.
  - split; [intros Hd; lia|]. intros _. reflexivity.
Qed.

(** X8.  A [get] for a post without comments resolves to an empty [data]
    and a [count] of 0. *)
Theorem get_unknown_post (postId : string) :
  (forall c, In c (comments s) -> c_postId c <> postId) ->
  get userId postId s = mkGetResult [] 0.
Proof.
  intros Hnone. unfold get, shapeComments, findMany, comment_count.
  rewrite count_where_filter.
  rewrite (filter_none (is_top_level_of postId)).
  - rewrite filter_none; [reflexivity|].
    intros c Hc. apply String.eqb_neq. now apply Hnone.
  - intros c Hc. unfold is_top_level_of.
    pose proof (Hnone c Hc) as Hp. apply String.eqb_neq in Hp.
    now rewrite Hp.
Qed.

End GetMore.

Section Reach.

Import Orm Prisma commentRouter Thread Store View.

Variable userId : option string.
Variable postId : string.
Variable s : Db.

(** A comment [k] levels down a thread of the post is fetched by any
    [select] with at least [k] nested [children] keys, below the top-level
    comment of its thread. *)
Lemma thread_fetched (sel : Select) (id : Z) (k : nat) :
  thread_depth s postId id k ->
  (k <= select_depth sel)%nat ->
  exists (top row : Comment) (sel' : Select),
    In top (filter (is_top_level_of postId) (comments s))
    /\ c_id row = id
    /\ (select_depth sel' + k = select_depth sel)%nat
    /\ incl (nodes_from k (shapeComment userId (select_comment s sel' row)))
            (nodes_from 0 (shapeComment userId (select_comment s sel top))).
Proof.
  intros Hdepth. induction Hdepth as [c Hc Hpost Hnull|c p k Hc Hp Hrec IH];
    intros Hk.
  - exists c, c, sel. split.
    + apply filter_In. split; [exact Hc|]. unfold is_top_level_of.
      rewrite Hnull. apply String.eqb_eq in Hpost. now rewrite Hpost.
    + split; [reflexivity|]. split; [lia | apply incl_refl].
  - destruct IH as [top [row [sel' [Htop [Hid [Hlevel Hincl]]]]]]; [lia|].
    destruct sel' as [cfg [sel''|]]; simpl in Hlevel; [|lia].
    exists top, c, sel''. split; [exact Htop|]. split; [reflexivity|].
    split; [lia|].
    intros x Hx. apply Hincl. simpl. right.
    apply in_flat_map.
    exists (shapeComment userId (select_comment s sel'' c)).
    split; [|exact Hx]. apply in_map. apply in_map.
    apply filter_In. split; [exact Hc|].
    apply is_child_of_parent. now rewrite Hid.
Qed.

Lemma thread_node (id : Z) (k : nat) :
  thread_depth s postId id k ->
  (k <= 6)%nat ->
  exists n : ShapedResponse,
    In (k, n) (nodes_with_depth (data (get userId postId s)))
    /\ sh_id n = id.
Proof.
  intros Hdepth Hk.
  destruct (thread_fetched (response_select userId) id k Hdepth Hk)
    as [top [row [sel' [Htop [Hid [_ Hincl]]]]]].
  exists (shapeComment userId (select_comment s sel' row)). split.
  - simpl. unfold nodes_with_depth, shapeComments, findMany.
    apply in_flat_map.
    exists (shapeComment userId
              (select_comment s (response_select userId) top)).
    split.
    + apply in_map. apply in_map. now apply orderBy_In.
    + apply Hincl. apply nodes_from_head.
  - now rewrite shaped_id.
Qed.

(** X9.  [get] returns every comment that lies at most 6 levels below a
    top-level comment of the post, at that level. *)
Theorem get_complete_to_cutoff (id : Z) (k : nat) :
  thread_depth s postId id k ->
  (k <= 6)%nat ->
  exists n : ShapedResponse,
    In (k, n) (nodes_with_depth (data (get userId postId s)))
    /\ sh_id n = id.
Proof. apply thread_node. Qed.

End Reach.

Section Shape.

Import Prisma commentRouter Thread View.

Variable userId : option string.

Lemma shapeComment_keeps_shape :
  forall (r : RawComment) (d : nat),
    map node_shape (nodes_from d (shapeComment userId r))
    = raw_shape_from d r.
Proof.
  fix IH 1. intros [id body ca ua cnt user ls [ch|]] d; simpl.
  - unfold node_shape at 1. simpl. f_equal.
    induction ch as [|a ch IHch]; simpl.
    + reflexivity.
    + rewrite map_app. f_equal; [apply IH | exact IHch].
  - reflexivity.
Qed.

(** X10.  [shapeComments] works at any depth: on any fetched forest, however
    deep, the shaped forest has the same comments at the same levels in the
    same order, and a node has a [children] key exactly when the fetched one
    has. *)
Theorem shapeComments_keeps_shape (commentsArr : list RawComment) :
  map node_shape (nodes_with_depth (shapeComments userId commentsArr))
  = flat_map (raw_shape_from 0) commentsArr.
Proof.
  unfold nodes_with_depth, shapeComments.
  induction commentsArr as [|r rest IH]; simpl.
  - reflexivity.
  - rewrite map_app. f_equal; [apply shapeComment_keeps_shape | exact IH].
Qed.

End Shape.

(** ** Calls followed by [get] or by another call *)

Section AfterCreate.

Import Orm Prisma commentRouter Thread Store View.

Variable now : Z.
Variable userId : string.
Variable input : SaveCommentInput.
Variable s : Db.

Let created : Comment :=
  mkComment (comment_seq s) userId (save_postId input) (save_parentId input)
            (save_body input) now now.
Let s1 : Db := snd (create now userId input s).

Lemma create_comments : comments s1 = comments s ++ [created].
Proof.
  subst s1. destruct (create_shape now userId input s) as [added [E _]].
  now rewrite E.
Qed.

Lemma create_seq : comment_seq s1 = comment_seq s + 1.
Proof.
  subst s1. destruct (create_shape now userId input s) as [added [E _]].
  now rewrite E.
Qed.

Lemma count_where_app (postId : string) (l1 l2 : list Comment) :
  count_where postId (l1 ++ l2)
  = (count_where postId l1 + count_where postId l2)%nat.
Proof.
  induction l1 as [|c l1 IH]; simpl.
  - reflexivity.
  - destruct (String.eqb (c_postId c) postId); simpl; now rewrite IH.
Qed.

Lemma thread_depth_mono (s' : Db) (postId : string) (id : Z) (k : nat) :
  incl (comments s) (comments s') ->
  thread_depth s postId id k -> thread_depth s' postId id k.
Proof.
  intros Hincl H. induction H as [c Hc Hpost Hnull|c p k Hc Hp Hrec IH].
  - apply thread_top; auto.
  - eapply thread_reply; eauto.
Qed.

Lemma seq_is_fresh :
  generated_ids s ->
  forall c, In c (comments s) -> comment_has_id (comment_seq s) c = false.
Proof.
  intros [_ Hgen] c Hc. rewrite Forall_forall in Hgen.
  specialize (Hgen c Hc). unfold comment_has_id. apply Z.eqb_neq. lia.
Qed.

(** X11.  A [create] raises the [count] that [get] reports for the post of
    the new comment by one and leaves the [count] of every other post. *)
Theorem create_raises_count (reader : option string) (postId : string) :
  count (get reader postId s1)
  = (count (get reader postId s)
     + if String.eqb (save_postId input) postId then 1 else 0)%nat.
Proof.
  simpl. unfold comment_count. rewrite create_comments, count_where_app.
  simpl. destruct (String.eqb (save_postId input) postId); reflexivity.
Qed.

(** X12.  A created top-level comment is returned by the next [get] of its
    post at level 0; a created reply to a comment that lies fewer than 6
    levels down a thread is returned one level below it. *)
Theorem create_then_get_shows (reader : option string) :
  (save_parentId input = None ->
     exists n,
       In (0%nat, n)
          (nodes_with_depth (data (get reader (save_postId input) s1)))
       /\ sh_id n = comment_seq s)
  /\ (forall (postId : string) (pid : Z) (k : nat),
       save_parentId input = Some pid ->
       thread_depth s postId pid k ->
       (k < 6)%nat ->
       exists n,
         In (S k, n) (nodes_with_depth (data (get reader postId s1)))
         /\ sh_id n = comment_seq s).
Proof.
  assert (Hin : In created (comments s1))
    by (rewrite create_comments; apply in_or_app; right; now left).
  split.
  - intros Hnull.
    apply (thread_node reader (save_postId input) s1 (comment_seq s) 0);
      [|lia].
    exact (thread_top s1 (save_postId input) created Hin eq_refl Hnull).
  - intros postId pid k Hpid Hparent Hk.
    apply (thread_node reader postId s1 (comment_seq s) (S k)); [|lia].
    apply (thread_reply s1 postId created pid k Hin Hpid).
    apply thread_depth_mono; [|exact Hparent].
    rewrite create_comments. intros c Hc. apply in_or_app. now left.
Qed.

(** X13.  On a store with generated ids, the comment just created can be
    edited by its author, the update reaching exactly one row, and by nobody
    else. *)
Theorem create_then_edit (now' : Z) (body' : string) :
  generated_ids s ->
  (body' <> save_body input ->
     fst (edit now' userId (mkEditComment body' (comment_seq s)) s1)
     = Ok (UpdatedComment (mkQueryResult 1)))
  /\ (forall other : string,
       other <> userId ->
       edit now' other (mkEditComment body' (comment_seq s)) s1
       = (Throw (TRPCError FORBIDDEN), s1)).
Proof.
  intros Hgen.
  assert (Hfind : findFirst (comment_has_id (comment_seq s)) (comments s1)
                  = Some created).
  { rewrite create_comments, findFirst_app.
    replace (findFirst (comment_has_id (comment_seq s)) (comments s))
      with (@None Comment)
      by (symmetry; apply findFirst_none_iff; now apply seq_is_fresh).
    unfold findFirst, comment_has_id. simpl. now rewrite Z.eqb_refl. }
  split.
  - intros Hbody. unfold edit. simpl. rewrite Hfind. simpl.
    rewrite String.eqb_refl. simpl.
    apply not_eq_sym in Hbody. apply String.eqb_neq in Hbody.
    rewrite Hbody. simpl. rewrite create_comments, filter_app.
    rewrite filter_none by now apply seq_is_fresh.
    unfold comment_has_id. simpl. now rewrite Z.eqb_refl.
  - intros other Hother. unfold edit. simpl. rewrite Hfind. simpl.
    apply not_eq_sym in Hother. apply String.eqb_neq in Hother.
    now rewrite Hother.
Qed.


End AfterCreate.

Section AfterLike.

Import Orm Prisma commentRouter Thread Store View.

Variable userId : string.
Variable commentId : Z.
Variable s : Db.

Let row : Like := mkLike userId commentId.
Let s1 : Db := snd (like userId commentId s).

Lemma liked_rows_split (rows : list Like) :
  List.length (filter (liked_comment commentId) rows)
  = (List.length
       (filter (liked_comment commentId)
          (filter (fun l => negb (like_matches userId commentId l)) rows))
     + List.length (filter (like_matches userId commentId) rows))%nat.
Proof.
  induction rows as [|l rows IH]; simpl.
  - reflexivity.
  - destruct (like_matches userId commentId l) eqn:Em; simpl.
    + apply like_matches_row in Em. subst l.
      unfold liked_comment at 1. simpl. rewrite Z.eqb_refl. simpl. lia.
    + destruct (liked_comment commentId l); simpl; lia.
Qed.

Lemma matching_rows_one :
  likes_unique s -> In row (likes s) ->
  List.length (filter (like_matches userId commentId) (likes s)) = 1%nat.
Proof.
  intros Huniq Hin. specialize (Huniq userId commentId).
  assert (Hf : In row (filter (like_matches userId commentId) (likes s))).
  { apply filter_In. split; [exact Hin|]. now apply like_matches_row. }
  destruct (filter (like_matches userId commentId) (likes s)) as [|x rest].
  - destruct Hf.
  - simpl in *. lia.
Qed.

(** X15.  On a store with at most one Like row per pair, the [get] that
    follows a [like] shows the toggle on the node of that comment: the
    caller's flag is flipped and [likeCount] moves by one. *)
Theorem like_then_get_shows (postId : string) (d : nat)
    (n : ShapedResponse) :
  likes_unique s ->
  In (d, n) (nodes_with_depth (data (get (Some userId) postId s1))) ->
  sh_id n = commentId ->
  (In row (likes s) ->
     sh_youLikedThis n = false
     /\ S (sh_likeCount n) = likes_on s commentId)
  /\ (~ In row (likes s) ->
     sh_youLikedThis n = true
     /\ sh_likeCount n = S (likes_on s commentId)).
Proof.
  intros Huniq Hin Hid.
  destruct (nodes_of_findMany s1 (Some userId) postId _ d n Hin)
    as [sel' [row' [Hn [_ [Hcfg _]]]]].
  apply response_select_configs in Hcfg. subst n.
  rewrite shaped_id in Hid.
  rewrite shaped_youLikedThis, shaped_likeCount, Hcfg, Hid.
  pose proof (caller_like_selected (Some userId) s1 commentId) as Hiff.
  unfold likes_on. split.
  - intros Hpresent.
    assert (Hl1 : likes s1
                  = filter (fun l => negb (like_matches userId commentId l))
                      (likes s))
      by (subst s1; now rewrite (like_present userId commentId s Hpresent)).
    split.
    + apply not_true_is_false. intros E.
      apply Hiff in E. destruct E as [u [Hu Hl]].
      injection Hu as <-. rewrite Hl1 in Hl.
      exfalso. exact (unmatched_rows_absent userId commentId s Hl).
    + rewrite Hl1, (liked_rows_split (likes s)).
      rewrite (matching_rows_one Huniq Hpresent). lia.
  - intros Habsent.
    assert (Hl1 : likes s1 = likes s ++ [row])
      by (subst s1; now rewrite (like_absent userId commentId s Habsent)).
    split.
    + apply Hiff. exists userId. split; [reflexivity|].
      rewrite Hl1. apply in_or_app. right. now left.
    + rewrite Hl1, filter_app, length_app. simpl.
      unfold liked_comment at 2. simpl. rewrite Z.eqb_refl. simpl. lia.
Qed.

(** X16.  A [like] touches the caller's row for that comment only: every
    other Like row is in the table afterwards exactly when it was before. *)
Theorem like_is_local (l : Like) :
  l <> row ->
  (In l (likes s1) <-> In l (likes s)).
Proof.
  intros Hother. subst s1.
  destruct (like_row_dec userId commentId s) as [Hin|Hnot].
  - rewrite (like_present userId commentId s Hin). simpl.
    rewrite filter_In. split; [tauto|]. intros Hl. split; [exact Hl|].
    destruct (like_matches userId commentId l) eqn:E; [|reflexivity].
    apply like_matches_row in E. contradiction.
  - rewrite (like_absent userId commentId s Hnot). simpl.
    rewrite in_app_iff. simpl. split; [|tauto].
    intros [Hl|[Hl|[]]]; [exact Hl|]. symmetry in Hl. contradiction.
Qed.

End AfterLike.

Section AfterDelete.

Import Orm Prisma commentRouter Thread Store View.

Lemma unique_ids_key (s : Db) (a b : Comment) :
  unique_ids s ->
  In a (comments s) -> In b (comments s) -> c_id a = c_id b -> a = b.
Proof.
  unfold unique_ids. induction (comments s) as [|x l IHl]; simpl;
    intros Hnd Ha Hb Hab.
  - destruct Ha.
  - inversion Hnd as [|y l' Hnotin Hnd']; subst.
    destruct Ha as [<-|Ha], Hb as [<-|Hb].
    + reflexivity.
    + exfalso. apply Hnotin. rewrite Hab. now apply in_map.
    + exfalso. apply Hnotin. rewrite <- Hab. now apply in_map.
    + now apply IHl.
Qed.

Lemma stored_depth_row (s : Db) (id : Z) (k : nat) :
  stored_depth s id k ->
  exists c, In c (comments s) /\ c_id c = id
    /\ match k with
       | O => c_parentId c = None
       | S k' => exists p, c_parentId c = Some p /\ stored_depth s p k'
       end.
Proof.
  intros H. destruct H as [c Hc Hp|c p k Hc Hp Hrec].
  - exists c. auto.
  - exists c. split; [exact Hc|]. split; [reflexivity|]. now exists p.
Qed.

(** X17.  On a store with the id as key, the [get] that follows the
    owner's [delete] of a comment returns, on any node, neither that comment
    nor a reply to it. *)
Theorem delete_hides_replies (userId : string) (id : Z) (s : Db)
    (cc : Comment) :
  unique_ids s ->
  findFirst (comment_has_id id) (comments s) = Some cc ->
  c_userId cc = userId ->
  let s1 := snd (delete userId id s) in
  forall (reader : option string) (postId : string) (d : nat)
         (n : ShapedResponse),
    In (d, n) (nodes_with_depth (data (get reader postId s1))) ->
    sh_id n <> id
    /\ (forall child : Comment,
          In child (comments s) -> c_parentId child = Some id ->
          sh_id n <> c_id child).
Proof.
  intros Huniq Hfind Hown s1 reader postId d n Hin.
  assert (Hs1 : forall c, In c (comments s1) ->
                          In c (comments s) /\ c_id c <> id).
  { intros c Hc.
    assert (E : comments s1
                = filter (fun c => negb (comment_has_id id c)) (comments s)).
    { subst s1. unfold delete. rewrite Hfind. simpl.
      apply String.eqb_eq in Hown. rewrite Hown. simpl.
      now destruct (filter (comment_has_id id) (comments s)). }
    rewrite E in Hc. apply filter_In in Hc. destruct Hc as [Hc Hkeep].
    split; [exact Hc|]. unfold comment_has_id in Hkeep.
    now rewrite negb_true_iff, Z.eqb_neq in Hkeep. }
  destruct (nodes_of_findMany s1 reader postId _ d n Hin)
    as [sel' [row' [Hn [Hrow' [_ [_ Hdepth]]]]]].
  subst n. rewrite shaped_id.
  destruct (Hs1 row' Hrow') as [Hrow Hrowid].
  split; [exact Hrowid|].
  intros child Hchild Hparent Hid.
  assert (Hsame : row' = child) by (apply (unique_ids_key s); auto).
  subst row'.
  destruct d as [|d]; apply stored_depth_row in Hdepth;
    destruct Hdepth as [c [Hc [Hcid Hshape]]];
    assert (Hc' : c = child)
      by (apply (unique_ids_key s); auto; now apply Hs1);
    subst c.
  - congruence.
  - destruct Hshape as [p [Hp Hup]].
    assert (p = id) by congruence. subst p.
    apply stored_depth_row in Hup. destruct Hup as [c2 [Hc2 [Hcid2 _]]].
    destruct (Hs1 c2 Hc2) as [_ Hneq]. contradiction.
Qed.

End AfterDelete.

Section Readers.

Import Orm Prisma commentRouter Thread Store View.

Variable s : Db.

Lemma forget_flag_select (reader1 reader2 : option string) (sel1 : Select) :
  forall (sel2 : Select) (row : Comment),
    select_depth sel1 = select_depth sel2 ->
    forget_flag (shapeComment reader1 (select_comment s sel1 row))
    = forget_flag (shapeComment reader2 (select_comment s sel2 row)).
Proof.
  induction sel1 as [c1|c1 sel1 IH] using Select_induction;
    intros [c2 [sel2|]] row Hdepth; simpl in Hdepth; try discriminate.
  - reflexivity.
  - injection Hdepth as Hdepth. simpl. do 2 f_equal.
    rewrite !map_map. apply map_ext. intros child. now apply IH.
Qed.

(** X20.  The reader's identity changes nothing but the [youLikedThis]
    flags: two reads of a post by any two readers, anonymous or not, agree
    on [count] and, with the flags cleared, on the whole of [data]. *)
Theorem get_reader_independent (reader1 reader2 : option string)
    (postId : string) :
  count (get reader1 postId s) = count (get reader2 postId s)
  /\ map forget_flag (data (get reader1 postId s))
     = map forget_flag (data (get reader2 postId s)).
Proof.
  split; [reflexivity|].
  simpl. unfold shapeComments, findMany. rewrite !map_map.
  apply map_ext. intros row. now apply forget_flag_select.
Qed.

Lemma count_where_filter_le (postId : string) (keep : Comment -> bool)
    (rows : list Comment) :
  (count_where postId (filter keep rows) <= count_where postId rows)%nat.
Proof.
  induction rows as [|x rows IH]; simpl.
  - lia.
  - destruct (keep x); simpl; destruct (String.eqb (c_postId x) postId); lia.
Qed.

Lemma count_where_filter_lt (keep : Comment -> bool) (cc : Comment)
    (rows : list Comment) :
  In cc rows -> keep cc = false ->
  (count_where (c_postId cc) (filter keep rows)
   < count_where (c_postId cc) rows)%nat.
Proof.
  induction rows as [|x rows IH]; simpl; intros Hin Hdrop.
  - destruct Hin.
  - destruct Hin as [->|Hin].
    + rewrite Hdrop, String.eqb_refl.
      pose proof (count_where_filter_le (c_postId cc) keep rows). lia.
    + specialize (IH Hin Hdrop).
      destruct (keep x); simpl;
        destruct (String.eqb (c_postId x) (c_postId cc)); lia.
Qed.

(** X19.  A [delete] by the owner lowers the [count] that [get] reports for
    the comment's post by at least one and raises the [count] of no post. *)
Theorem delete_lowers_count (userId : string) (id : Z) (cc : Comment)
    (reader : option string) (postId : string) :
  findFirst (comment_has_id id) (comments s) = Some cc ->
  c_userId cc = userId ->
  let s1 := snd (delete userId id s) in
  (count (get reader (c_postId cc) s1) < count (get reader (c_postId cc) s))%nat
  /\ (count (get reader postId s1) <= count (get reader postId s))%nat.
Proof.
  intros Hfind Hown s1.
  assert (Hs1 : comments s1
                = filter (fun c => negb (comment_has_id id c)) (comments s)).
  { subst s1. unfold delete. rewrite Hfind. simpl.
    apply String.eqb_eq in Hown. rewrite Hown. simpl.
    now destruct (filter (comment_has_id id) (comments s)). }
  destruct (findFirst_some _ _ _ Hfind) as [Hin Hid].
  simpl. unfold comment_count. rewrite Hs1. split.
  - apply count_where_filter_lt; [exact Hin | now rewrite Hid].
  - apply count_where_filter_le.
Qed.

End Readers.

(** * The further properties on the sample stores *)

Section MoreInstances.

Import Orm Prisma commentRouter Thread Store View Sample.

Lemma delete_by_owner_witness :
  fst (delete "alice" 1 small_db) = Ok 1
  /\ findFirst (comment_has_id 1) (comments (snd (delete "alice" 1 small_db)))
     = None.
Proof.
  destruct (delete_by_owner "alice" 1 small_db (reply 1 "alice" None)
              eq_refl eq_refl) as [Hres [Hgone _]].
  split; [exact Hres | exact Hgone].
Defined.

Lemma delete_non_owner_forbidden_witness :
  "alice" <> "bob"
  /\ delete "bob" 1 small_db = (Throw (TRPCError FORBIDDEN), small_db).
Proof.
  assert (H : "alice" <> "bob") by discriminate.
  split; [exact H|].
  exact (delete_non_owner_forbidden "bob" 1 small_db (reply 1 "alice" None)
           eq_refl H).
Defined.

Lemma delete_then_forbidden_witness :
  delete "alice" 1 (snd (delete "alice" 1 small_db))
  = (Throw (TRPCError FORBIDDEN), snd (delete "alice" 1 small_db)).
Proof.
  exact (proj1 (delete_then_forbidden "alice" 1 small_db
                  (reply 1 "alice" None) 5 "alice" "hi" eq_refl eq_refl)).
Defined.

Lemma edit_again_is_noop_witness :
  "text" <> "hi"
  /\ exists row : Comment,
       edit 9 "alice" (mkEditComment "hi" 1)
         (snd (edit 5 "alice" (mkEditComment "hi" 1) small_db))
       = (Ok (CurrentComment row),
          snd (edit 5 "alice" (mkEditComment "hi" 1) small_db))
       /\ c_body row = "hi".
Proof.
  assert (H : "text" <> "hi") by discriminate.
  split; [exact H|].
  destruct (edit_again_is_noop 5 9 "alice" (mkEditComment "hi" 1) small_db
              (reply 1 "alice" None) eq_refl eq_refl H)
    as [row [Hres [_ [Hbody _]]]].
  exists row. split; [exact Hres | exact Hbody].
Defined.

Lemma liked_node_returned :
  In liked_node (nodes_with_depth (data (get (Some "alice") "p1" thread_db))).
Proof. vm_compute. tauto. Qed.

Lemma get_likeCount_witness :
  In liked_node (nodes_with_depth (data (get (Some "alice") "p1" thread_db)))
  /\ sh_likeCount (snd liked_node) = 2%nat
  /\ (1 <= sh_likeCount (snd liked_node))%nat.
Proof.
  split; [exact liked_node_returned|].
  destruct (get_likeCount (Some "alice") thread_db "p1" (fst liked_node)
              (snd liked_node) liked_node_returned) as [Hcount Hliked].
  split; [exact Hcount | exact (Hliked eq_refl)].
Defined.

Lemma get_children_key_witness :
  In liked_node (nodes_with_depth (data (get (Some "alice") "p1" thread_db)))
  /\ (fst liked_node < 6)%nat
  /\ exists ch,
       sh_children (snd liked_node) = Some ch
       /\ Permutation (map sh_id ch) [3].
Proof.
  assert (Hd : (fst liked_node < 6)%nat) by (simpl; lia).
  split; [exact liked_node_returned|]. split; [exact Hd|].
  exact (proj1 (get_children_key (Some "alice") thread_db "p1"
                  (fst liked_node) (snd liked_node) liked_node_returned) Hd).
Defined.

Lemma get_unknown_post_witness :
  (forall c, In c (comments small_db) -> c_postId c <> "p9")
  /\ get None "p9" small_db = mkGetResult [] 0.
Proof.
  assert (H : forall c, In c (comments small_db) -> c_postId c <> "p9").
  { intros c [<-|[]]. discriminate. }
  split; [exact H | exact (get_unknown_post None small_db "p9" H)].
Defined.

Lemma thread_db_depth_2 : thread_depth thread_db "p1" 2 1.
Proof.
  apply (thread_reply thread_db "p1" (reply 2 "bob" (Some 1)) 1 0);
    [simpl; tauto | reflexivity |].
  apply (thread_top thread_db "p1" (reply 1 "alice" None));
    [simpl; tauto | reflexivity | reflexivity].
Qed.

Lemma get_complete_to_cutoff_witness :
  thread_depth thread_db "p1" 2 1
  /\ exists n,
       In (1%nat, n) (nodes_with_depth (data (get None "p1" thread_db)))
       /\ sh_id n = 2.
Proof.
  split; [exact thread_db_depth_2|].
  refine (get_complete_to_cutoff None "p1" thread_db 2 1 thread_db_depth_2 _).
  lia.
Defined.

Lemma small_db_depth_1 : thread_depth small_db "p1" 1 0.
Proof.
  apply (thread_top small_db "p1" (reply 1 "alice" None));
    [simpl; tauto | reflexivity | reflexivity].
Qed.

Lemma create_then_get_shows_witness :
  thread_depth small_db "p1" 1 0
  /\ exists n,
       In (1%nat, n)
          (nodes_with_depth
             (data (get None "p1"
                      (snd (create 5 "bob" (mkSaveComment "hi" "p1" (Some 1))
                              small_db)))))
       /\ sh_id n = 2.
Proof.
  split; [exact small_db_depth_1|].
  refine (proj2 (create_then_get_shows 5 "bob"
                   (mkSaveComment "hi" "p1" (Some 1)) small_db None)
            "p1" 1 0%nat eq_refl small_db_depth_1 _).
  lia.
Defined.

Lemma create_then_edit_witness :
  generated_ids small_db
  /\ fst (edit 9 "bob" (mkEditComment "again" 2)
            (snd (create 5 "bob" (mkSaveComment "hi" "p1" (Some 1))
                    small_db)))
     = Ok (UpdatedComment (mkQueryResult 1))
  /\ edit 9 "alice" (mkEditComment "again" 2)
       (snd (create 5 "bob" (mkSaveComment "hi" "p1" (Some 1)) small_db))
     = (Throw (TRPCError FORBIDDEN),
        snd (create 5 "bob" (mkSaveComment "hi" "p1" (Some 1)) small_db)).
Proof.
  split; [exact small_db_generated_ids|].
  destruct (create_then_edit 5 "bob" (mkSaveComment "hi" "p1" (Some 1))
              small_db 9 "again" small_db_generated_ids) as [Hown Hother].
  split.
  - apply Hown. discriminate.
  - apply Hother. discriminate.
Defined.


Lemma unliked_node_returned :
  In unliked_node
     (nodes_with_depth
        (data (get (Some "alice") "p1" (snd (like "alice" 2 thread_db))))).
Proof. vm_compute. tauto. Qed.

Lemma like_then_get_shows_witness :
  likes_unique thread_db
  /\ In (mkLike "alice" 2) (likes thread_db)
  /\ sh_youLikedThis (snd unliked_node) = false
  /\ S (sh_likeCount (snd unliked_node)) = likes_on thread_db 2.
Proof.
  assert (Hin : In (mkLike "alice" 2) (likes thread_db)) by (simpl; tauto).
  split; [exact thread_db_likes_unique|]. split; [exact Hin|].
  exact (proj1 (like_then_get_shows "alice" 2 thread_db "p1"
                  (fst unliked_node) (snd unliked_node)
                  thread_db_likes_unique unliked_node_returned eq_refl) Hin).
Defined.

Lemma like_is_local_witness :
  mkLike "bob" 2 <> mkLike "alice" 2
  /\ (In (mkLike "bob" 2) (likes (snd (like "alice" 2 thread_db)))
      <-> In (mkLike "bob" 2) (likes thread_db)).
Proof.
  assert (H : mkLike "bob" 2 <> mkLike "alice" 2) by discriminate.
  split; [exact H | exact (like_is_local "alice" 2 thread_db _ H)].
Defined.

Lemma forum_db_unique_ids : unique_ids forum_db.
Proof.
  unfold unique_ids. simpl.
  repeat (constructor; [simpl; intuition discriminate|]). constructor.
Qed.

Lemma remaining_node_returned :
  In remaining_node
     (nodes_with_depth
        (data (get None "p1" (snd (delete "alice" 1 forum_db))))).
Proof. vm_compute. tauto. Qed.

Lemma delete_hides_replies_witness :
  unique_ids forum_db
  /\ In remaining_node
        (nodes_with_depth
           (data (get None "p1" (snd (delete "alice" 1 forum_db)))))
  /\ In (reply 2 "bob" (Some 1)) (comments forum_db)
  /\ sh_id (snd remaining_node) <> 1
  /\ sh_id (snd remaining_node) <> 2.
Proof.
  assert (Hchild : In (reply 2 "bob" (Some 1)) (comments forum_db))
    by (simpl; tauto).
  split; [exact forum_db_unique_ids|].
  split; [exact remaining_node_returned|]. split; [exact Hchild|].
  destruct (delete_hides_replies "alice" 1 forum_db (reply 1 "alice" None)
              forum_db_unique_ids eq_refl eq_refl None "p1"
              (fst remaining_node) (snd remaining_node)
              remaining_node_returned) as [Hself Hreplies].
  split; [exact Hself|].
  exact (Hreplies (reply 2 "bob" (Some 1)) Hchild eq_refl).
Defined.

Lemma reachable_store_ok_witness :
  store_ok
    (run_all [CallCreate 1 "alice" (mkSaveComment "text" "p1" None);
              CallLike "bob" 1;
              CallEdit 2 "alice" (mkEditComment "more" 1)]
       (initial [mkPost "p1" "alice"] author)).
Proof.
  apply reachable_store_ok.
  - repeat constructor. discriminate.
  - repeat constructor; discriminate.
Defined.

Lemma delete_lowers_count_witness :
  (count (get None "p1" (snd (delete "alice" 1 thread_db)))
   < count (get None "p1" thread_db))%nat.
Proof.
  exact (proj1 (delete_lowers_count thread_db "alice" 1
                  (reply 1 "alice" None) None "p1" eq_refl eq_refl)).
Defined.

End MoreInstances.
